(** * ai-news: the feed fetcher and the site builder

    A shallow embedding of [scripts/fetch_feeds.py] and
    [scripts/build_site.py], and the properties of the two scripts.

    Conventions of the embedding.
    - A Python [str] is a [string]; a character is a code point of the
      range U+0000..U+00FF, and the character tables ([\w], [\s],
      [str.lower]) are those of the Unicode database on that range.
    - A [dict] read with [.get] is a [gmap string string]: the values of an
      entry of a feed, of a feed config and of the metadata of a stored
      article are strings, as the fetcher writes them. The dict literal
      that [fetch_feed] builds, with its seven fixed keys, is a record.
    - The set [existing_urls] is a [gset string] held in the state of the
      run, because the script shares one set object between all the feeds.
    - Effects live in a state-and-exception monad: what is printed, the
      calls to the clock and to the network, the files written. The
      exceptions are those of classes derived from [Exception]. What the
      libraries and the network answer is read from a class of oracles;
      writing a file does not fail.
    - [hashlib.md5] and the arithmetic of [datetime] are written out, so
      that a slug can be computed. *)

From Stdlib Require Import ZArith NArith Ascii String List Lia Permutation Sorted.
From stdpp Require Import base option gmap sets list strings pretty sorting.

(** ** Python strings *)

Module Py.

Definition ord (c : ascii) : N := N_of_ascii c.

Definition in_range (lo hi : N) (c : ascii) : bool :=
  ((lo <=? ord c) && (ord c <=? hi))%N.

(** [str.isspace], which is also the class [\s] of [re] on a [str]. *)
Definition isspace (c : ascii) : bool :=
  in_range 0x09 0x0d c || in_range 0x1c 0x20 c
  || (ord c =? 0x85)%N || (ord c =? 0xa0)%N.

(** [str.isalnum]: letters, decimal digits and the other numerics. *)
Definition isalnum (c : ascii) : bool :=
  in_range 0x30 0x39 c || in_range 0x41 0x5a c || in_range 0x61 0x7a c
  || (ord c =? 0xaa)%N || in_range 0xb2 0xb3 c || (ord c =? 0xb5)%N
  || in_range 0xb9 0xba c || in_range 0xbc 0xbe c
  || in_range 0xc0 0xd6 c || in_range 0xd8 0xf6 c || in_range 0xf8 0xff c.

(** The class [\w] of [re] on a [str]. *)
Definition re_word (c : ascii) : bool := isalnum c || (c =? "_")%char.

Definition isupper (c : ascii) : bool :=
  in_range 0x41 0x5a c || (in_range 0xc0 0xde c && negb (ord c =? 0xd7)%N).

Definition lower_char (c : ascii) : ascii :=
  if isupper c then ascii_of_N (ord c + 32) else c.

Fixpoint str_map (f : ascii → ascii) (s : string) : string :=
  match s with
  | "" => ""
  | String c s' => String (f c) (str_map f s')
  end.

(** [s.lower()] *)
Definition lower (s : string) : string := str_map lower_char s.

(** [c in s], for a single character [c] *)
Fixpoint contains (c : ascii) (s : string) : bool :=
  match s with
  | "" => false
  | String d s' => (d =? c)%char || contains c s'
  end.

(** [s[:n]] for [0 <= n] *)
Fixpoint take (n : nat) (s : string) : string :=
  match n, s with
  | S n', String c s' => String c (take n' s')
  | _, _ => ""
  end.

Fixpoint all (p : ascii → bool) (s : string) : bool :=
  match s with
  | "" => true
  | String c s' => p c && all p s'
  end.

(** [re.sub("[^...]", "", s)]: the characters of the class [keep] stay. *)
Fixpoint re_delete_except (keep : ascii → bool) (s : string) : string :=
  match s with
  | "" => ""
  | String c s' =>
      if keep c then String c (re_delete_except keep s')
      else re_delete_except keep s'
  end.

(** [re.sub("[...]+", r, s)]: every maximal run of characters of the
    class [cls] becomes the one character [r]. [in_run] says that the
    character before belonged to the run being replaced. *)
Fixpoint re_sub_runs_from (cls : ascii → bool) (r : ascii)
         (in_run : bool) (s : string) : string :=
  match s with
  | "" => ""
  | String c s' =>
      if cls c then
        if in_run then re_sub_runs_from cls r true s'
        else String r (re_sub_runs_from cls r true s')
      else String c (re_sub_runs_from cls r false s')
  end.

Definition re_sub_runs (cls : ascii → bool) (r : ascii) (s : string) : string :=
  re_sub_runs_from cls r false s.

Fixpoint lstrip (cls : ascii → bool) (s : string) : string :=
  match s with
  | "" => ""
  | String c s' => if cls c then lstrip cls s' else s
  end.

Fixpoint rstrip (cls : ascii → bool) (s : string) : string :=
  match s with
  | "" => ""
  | String c s' =>
      match rstrip cls s' with
      | "" => if cls c then "" else String c ""
      | r => String c r
      end
  end.

(** [s.strip(chars)], and [s.strip()] when [cls] is [isspace] *)
Definition strip (cls : ascii → bool) (s : string) : string :=
  rstrip cls (lstrip cls s).

(** [s.rsplit(sep, 1)[0]]: what stands before the last [sep], and all of
    [s] when it has no [sep]. *)
Fixpoint rsplit1_head (sep : ascii) (s : string) : string :=
  match s with
  | "" => ""
  | String c s' =>
      if contains sep s' then String c (rsplit1_head sep s')
      else if (c =? sep)%char then "" else s
  end.

(** [re.sub("<[^>]+>", "", s)]. A match starts at a ["<"] that is followed
    by at least one character other than [">"] and, later, by a [">"]; it
    ends at the first such [">"]. The function returns a pair: the
    substitution applied to [s], and the substitution applied to what
    follows the first [">"] of [s] (none when [s] has no [">"]). *)
Fixpoint re_sub_tags_pair (s : string) : string * option string :=
  match s with
  | "" => ("", None)
  | String c s' =>
      let '(out, after_gt) := re_sub_tags_pair s' in
      let here :=
        if (c =? "<")%char then
          match s', after_gt with
          | String d _, Some r => if (d =? ">")%char then String c out else r
          | _, _ => String c out
          end
        else String c out in
      (here, if (c =? ">")%char then Some out else after_gt)
  end.

Definition re_sub_tags (s : string) : string := fst (re_sub_tags_pair s).

(** The last character, if any. *)
Fixpoint last (s : string) : option ascii :=
  match s with
  | "" => None
  | String c "" => Some c
  | String _ s' => last s'
  end.

Definition head (s : string) : option ascii :=
  match s with "" => None | String c _ => Some c end.

(** No two neighbours of [s] are both the character [c]. *)
Fixpoint no_repeat (c : ascii) (s : string) : bool :=
  match s with
  | String a (String b _ as s') => negb ((a =? c)%char && (b =? c)%char) && no_repeat c s'
  | _ => true
  end.

End Py.

(** ** The [html] module *)

(** [html.unescape] returns its argument when it holds no ["&"], and
    otherwise replaces the character references by a table of some two
    thousand names; the replacement is the oracle [charref_sub]. *)
Class Html := { charref_sub : string → string }.

Definition unescape `{Html} (s : string) : string :=
  if negb (Py.contains "&" s) then s else charref_sub s.

(** ** fetch_feeds.py: the text functions *)

Definition slugify `{Html} (text : string) : string :=
  let text := unescape text in
  let text := Py.re_delete_except
                (λ c, Py.re_word c || Py.isspace c || (c =? "-")%char)
                (Py.lower text) in
  let text := Py.strip (λ c, (c =? "-")%char)
                (Py.re_sub_runs (λ c, (c =? "-")%char || Py.isspace c) "-" text) in
  Py.take 80 text.

Definition strip_html `{Html} (text : string) : string :=
  if String.eqb text "" then ""
  else
    let text := Py.re_sub_tags text in
    let text := unescape text in
    Py.strip Py.isspace (Py.re_sub_runs Py.isspace " " text).

Definition truncate_description `{Html} (text : string) (max_chars : nat) : string :=
  let text := strip_html text in
  if (String.length text <=? max_chars)%nat then text
  else
    let truncated := Py.rsplit1_head " " (Py.take max_chars text) in
    truncated +:+ "...".


(** ** The [hashlib] module: MD5 (RFC 1321) *)

Module Hashlib.
Local Open Scope Z_scope.

(** [s.encode()]: UTF-8; a code point above U+007F takes two bytes. *)
Fixpoint encode (s : string) : list Z :=
  match s with
  | "" => []
  | String c s' =>
      let n := Z.of_N (Py.ord c) in
      if n <? 0x80 then n :: encode s'
      else Z.lor 0xc0 (Z.shiftr n 6) :: Z.lor 0x80 (Z.land n 0x3f) :: encode s'
  end.

Definition wrap32 (x : Z) : Z := Z.land x 0xffffffff.

Definition rotl32 (x c : Z) : Z :=
  wrap32 (Z.lor (Z.shiftl x c) (Z.shiftr x (32 - c))).

Definition shifts : list Z :=
  [7; 12; 17; 22; 7; 12; 17; 22; 7; 12; 17; 22; 7; 12; 17; 22;
   5; 9; 14; 20; 5; 9; 14; 20; 5; 9; 14; 20; 5; 9; 14; 20;
   4; 11; 16; 23; 4; 11; 16; 23; 4; 11; 16; 23; 4; 11; 16; 23;
   6; 10; 15; 21; 6; 10; 15; 21; 6; 10; 15; 21; 6; 10; 15; 21].

Definition sines : list Z :=
  [0xd76aa478; 0xe8c7b756; 0x242070db; 0xc1bdceee;
   0xf57c0faf; 0x4787c62a; 0xa8304613; 0xfd469501;
   0x698098d8; 0x8b44f7af; 0xffff5bb1; 0x895cd7be;
   0x6b901122; 0xfd987193; 0xa679438e; 0x49b40821;
   0xf61e2562; 0xc040b340; 0x265e5a51; 0xe9b6c7aa;
   0xd62f105d; 0x02441453; 0xd8a1e681; 0xe7d3fbc8;
   0x21e1cde6; 0xc33707d6; 0xf4d50d87; 0x455a14ed;
   0xa9e3e905; 0xfcefa3f8; 0x676f02d9; 0x8d2a4c8a;
   0xfffa3942; 0x8771f681; 0x6d9d6122; 0xfde5380c;
   0xa4beea44; 0x4bdecfa9; 0xf6bb4b60; 0xbebfbc70;
   0x289b7ec6; 0xeaa127fa; 0xd4ef3085; 0x04881d05;
   0xd9d4d039; 0xe6db99e5; 0x1fa27cf8; 0xc4ac5665;
   0xf4292244; 0x432aff97; 0xab9423a7; 0xfc93a039;
   0x655b59c3; 0x8f0ccc92; 0xffeff47d; 0x85845dd1;
   0x6fa87e4f; 0xfe2ce6e0; 0xa3014314; 0x4e0811a1;
   0xf7537e82; 0xbd3af235; 0x2ad7d2bb; 0xeb86d391].

(** The message, a 1 bit, zeros up to 56 modulo 64, and the length in
    bits on eight bytes, least significant first. *)
Definition le_bytes (n : nat) (x : Z) : list Z :=
  map (λ i, Z.land (Z.shiftr x (8 * Z.of_nat i)) 0xff) (seq 0 n).

Definition pad (msg : list Z) : list Z :=
  let len := Z.of_nat (length msg) in
  let zeros := Z.to_nat ((55 - len) mod 64) in
  msg ++ 0x80 :: replicate zeros 0 ++ le_bytes 8 ((8 * len) mod 2 ^ 64).

Fixpoint le_word (bs : list Z) : Z :=
  match bs with
  | [] => 0
  | b :: bs' => b + 256 * le_word bs'
  end.

(** The words of the padded message, four bytes each. *)
Fixpoint words (n : nat) (bs : list Z) : list Z :=
  match n with
  | O => []
  | S n' => le_word (firstn 4 bs) :: words n' (skipn 4 bs)
  end.

Definition state : Type := Z * Z * Z * Z.

Definition round (m : list Z) (st : state) (i : nat) : state :=
  let '(a, b, c, d) := st in
  let j := Z.of_nat i in
  let '(f, g) :=
    if j <? 16 then (Z.lor (Z.land b c) (Z.land (Z.lxor b 0xffffffff) d), j)
    else if j <? 32 then
      (Z.lor (Z.land d b) (Z.land (Z.lxor d 0xffffffff) c), (5 * j + 1) mod 16)
    else if j <? 48 then (Z.lxor b (Z.lxor c d), (3 * j + 5) mod 16)
    else (Z.lxor c (Z.lor b (Z.lxor d 0xffffffff)), (7 * j) mod 16) in
  let f := wrap32 (f + a + nth i sines 0 + nth (Z.to_nat g) m 0) in
  (d, wrap32 (b + rotl32 f (nth i shifts 0)), b, c).

Definition block (st : state) (m : list Z) : state :=
  let '(a0, b0, c0, d0) := st in
  let '(a, b, c, d) := fold_left (round m) (seq 0 64) st in
  (wrap32 (a0 + a), wrap32 (b0 + b), wrap32 (c0 + c), wrap32 (d0 + d)).

Fixpoint blocks (n : nat) (ws : list Z) (st : state) : state :=
  match n with
  | O => st
  | S n' => blocks n' (skipn 16 ws) (block st (firstn 16 ws))
  end.

Definition digest (msg : list Z) : list Z :=
  let bs := pad msg in
  let '(a, b, c, d) :=
    blocks (length bs / 64) (words (length bs / 4) bs)
           (0x67452301, 0xefcdab89, 0x98badcfe, 0x10325476) in
  le_bytes 4 a ++ le_bytes 4 b ++ le_bytes 4 c ++ le_bytes 4 d.

Definition hex_digit (x : Z) : ascii :=
  ascii_of_N (Z.to_N (if x <? 10 then 48 + x else 87 + x)).

Fixpoint hex (bs : list Z) : string :=
  match bs with
  | [] => ""
  | b :: bs' => String (hex_digit (b / 16)) (String (hex_digit (b mod 16)) (hex bs'))
  end.

(** [hashlib.md5(data).hexdigest()] *)
Definition md5_hexdigest (data : list Z) : string := hex (digest data).

End Hashlib.


(** ** Exceptions and the monad of the scripts *)

(** An exception of a class derived from [Exception]: its class name and
    what [str(e)] gives. Those are the ones [except Exception] catches. *)
Inductive exception : Type := Exc (cls : string) (msg : string).

Definition exc_str (e : exception) : string := let 'Exc _ m := e in m.

Inductive result (A : Type) : Type :=
| Ok (a : A)
| Raise (e : exception).
Arguments Ok {A} a.
Arguments Raise {A} e.

(** A computation on a state [S] that returns or raises; what it did to
    the state before it raised stays done. *)
Definition M (S A : Type) : Type := S → result A * S.

#[global] Instance M_ret {S} : MRet (M S) := λ A a s, (Ok a, s).

#[global] Instance M_bind {S} : MBind (M S) := λ A B f m s,
  match m s with
  | (Ok a, s') => f a s'
  | (Raise e, s') => (Raise e, s')
  end.

Definition raise {S A} (e : exception) : M S A := λ s, (Raise e, s).

(** [try: m / except Exception as e: h e] *)
Definition try_except {S A} (m : M S A) (h : exception → M S A) : M S A := λ s,
  match m s with
  | (Ok a, s') => (Ok a, s')
  | (Raise e, s') => h e s'
  end.

Definition get_state {S} : M S S := λ s, (Ok s, s).
Definition modify {S} (f : S → S) : M S () := λ s, (Ok (), f s).

(** A value a library computed, or the exception it raised. *)
Definition lift {S A} (r : exception + A) : M S A :=
  match r with
  | inl e => raise e
  | inr a => mret a
  end.

(** [d[k]] on a dict *)
Definition getitem {S} (d : gmap string string) (k : string) : M S string :=
  match d !! k with
  | Some v => mret v
  | None => raise (Exc "KeyError" k)
  end.

(** [bool(x)] for a string or [None] *)
Definition truthy (x : option string) : bool :=
  match x with
  | Some s => negb (String.eqb s "")
  | None => false
  end.

(** [x or y] *)
Definition py_or (x y : option string) : option string :=
  if truthy x then x else y.

Definition nl : string := String "010" "".

(** ** The [datetime] module *)

Module Datetime.
Local Open Scope Z_scope.

(** [tzinfo] is the offset from UTC in seconds, or [None] on a naive
    value. *)
Record datetime : Type := mk {
  year : Z; month : Z; day : Z;
  hour : Z; minute : Z; second : Z; microsecond : Z;
  tzinfo : option Z
}.

Definition is_leap (y : Z) : bool :=
  (y mod 4 =? 0) && (negb (y mod 100 =? 0) || (y mod 400 =? 0)).

Definition days_before_year (y : Z) : Z :=
  let y := y - 1 in y * 365 + y / 4 - y / 100 + y / 400.

Definition DAYS_IN_MONTH : list Z :=
  [-1; 31; 28; 31; 30; 31; 30; 31; 31; 30; 31; 30; 31].

Definition DAYS_BEFORE_MONTH : list Z :=
  [-1; 0; 31; 59; 90; 120; 151; 181; 212; 243; 273; 304; 334].

Definition days_before_month (y m : Z) : Z :=
  nth (Z.to_nat m) DAYS_BEFORE_MONTH 0
  + (if (2 <? m) && is_leap y then 1 else 0).

Definition ymd2ord (y m d : Z) : Z :=
  days_before_year y + days_before_month y m + d.

Definition ord2ymd (n : Z) : Z * Z * Z :=
  let n := n - 1 in
  let n400 := n / 146097 in let n := n mod 146097 in
  let y := n400 * 400 + 1 in
  let n100 := n / 36524 in let n := n mod 36524 in
  let n4 := n / 1461 in let n := n mod 1461 in
  let n1 := n / 365 in let n := n mod 365 in
  let y := y + n100 * 100 + n4 * 4 + n1 in
  if (n1 =? 4) || (n100 =? 4) then (y - 1, 12, 31)
  else
    let leapyear := (n1 =? 3) && (negb (n4 =? 24) || (n100 =? 3)) in
    let m := Z.shiftr (n + 50) 5 in
    let preceding :=
      nth (Z.to_nat m) DAYS_BEFORE_MONTH 0
      + (if (2 <? m) && leapyear then 1 else 0) in
    if n <? preceding then
      let m := m - 1 in
      let preceding :=
        preceding - (nth (Z.to_nat m) DAYS_IN_MONTH 0
                     + (if (m =? 2) && leapyear then 1 else 0)) in
      (y, m, n - preceding + 1)
    else (y, m, n - preceding + 1).

Definition toordinal (d : datetime) : Z := ymd2ord (year d) (month d) (day d).

(** Microseconds from the start of year 1 to the instant that [d] names
    when its offset from UTC is [off]. *)
Definition instant (d : datetime) (off : Z) : Z :=
  ((toordinal d * 24 + hour d) * 60 + minute d) * 60 * 1000000
  + (second d - off) * 1000000 + microsecond d.

(** [a < b]: two naive values compare by their fields, two aware ones by
    their instants, and one of each is a [TypeError]. *)
Definition lt (a b : datetime) : exception + bool :=
  match tzinfo a, tzinfo b with
  | None, None => inr (instant a 0 <? instant b 0)
  | Some oa, Some ob => inr (instant a oa <? instant b ob)
  | _, _ => inl (Exc "TypeError"
                   "can't compare offset-naive and offset-aware datetimes")
  end.

(** [d.replace(tzinfo=timezone.utc)] *)
Definition replace_tzinfo_utc (d : datetime) : datetime :=
  mk (year d) (month d) (day d) (hour d) (minute d) (second d)
     (microsecond d) (Some 0).

(** [d - timedelta(days=n)] *)
Definition sub_days (d : datetime) (n : Z) : exception + datetime :=
  let o := toordinal d - n in
  if (0 <? o) && (o <=? 3652059) then
    let '(y, m, dd) := ord2ymd o in
    inr (mk y m dd (hour d) (minute d) (second d) (microsecond d) (tzinfo d))
  else inl (Exc "OverflowError" "date value out of range").

Definition pad2 (x : Z) : string :=
  if x <? 10 then "0" +:+ pretty x else pretty x.

(** [d.strftime("%Y-%m-%d")]; the C library prints the year unpadded. *)
Definition strftime_Ymd (d : datetime) : string :=
  pretty (year d) +:+ "-" +:+ pad2 (month d) +:+ "-" +:+ pad2 (day d).

(** [d.strftime("%Y-%m-%dT%H:%M:%SZ")] *)
Definition strftime_YmdTHMSZ (d : datetime) : string :=
  strftime_Ymd d +:+ "T" +:+ pad2 (hour d) +:+ ":" +:+ pad2 (minute d)
  +:+ ":" +:+ pad2 (second d) +:+ "Z".

Definition month_name (m : Z) : string :=
  nth (Z.to_nat m)
    [""; "January"; "February"; "March"; "April"; "May"; "June"; "July";
     "August"; "September"; "October"; "November"; "December"] "".

(** [d.strftime("%B %Y")] *)
Definition strftime_BY (d : datetime) : string :=
  month_name (month d) +:+ " " +:+ pretty (year d).

End Datetime.
Export Datetime (datetime).


(** ** fetch_feeds.py: the fetcher *)

(** What [feedparser.parse] returns: [parsed.bozo], the text of
    [parsed.bozo_exception], and [parsed.entries], each entry a dict. *)
Record parsed_feed : Type := {
  bozo : bool;
  bozo_exception : string;
  entries : list (gmap string string)
}.

(** The arguments of [client.messages.create]. *)
Record request : Type := {
  api_key : string;
  model : string;
  max_tokens : nat;
  message : string
}.

(** A stored article file as [frontmatter] reads it. *)
Record post : Type := {
  metadata : gmap string string;
  content : string
}.

(** The article dict that [fetch_feed] builds. *)
Record Article : Type := {
  title : string;
  url : string;
  source : string;
  category : string;
  date : string;
  summary : string;
  slug : string
}.

(** What the process environment and the libraries answer. The number is
    the count of the calls made so far, so that two calls with the same
    arguments need not agree.
    - [clock]: the fields of [datetime.now(timezone.utc)];
    - [messages_create]: the [text] of each block of [response.content],
      or the exception of the client or of the call;
    - [frontmatter_load]: loading a file of the content directory. *)
Class World : Type := {
  world_html :: Html;
  ANTHROPIC_API_KEY : option string;
  HAS_ANTHROPIC : bool;
  messages_create : nat → request → exception + list string;
  feedparser_parse : nat → string → exception + parsed_feed;
  dateparser_parse : nat → string → exception + datetime;
  clock : nat → datetime;
  yaml_feeds : exception + list (gmap string string)
}.

(** The state of a run of the fetcher: the shared set of urls, the
    number of calls made to the world, the two output streams, and the
    content directory (file name to what [frontmatter.load] makes of the
    file). *)
Record run : Type := {
  existing_urls : gset string;
  ticks : nat;
  stdout : list string;
  stderr : list string;
  content_dir : gmap string (exception + post)
}.

Definition set_existing_urls (f : gset string → gset string) (s : run) : run :=
  {| existing_urls := f (existing_urls s); ticks := ticks s;
     stdout := stdout s; stderr := stderr s; content_dir := content_dir s |}.

Definition tick (s : run) : run :=
  {| existing_urls := existing_urls s; ticks := S (ticks s);
     stdout := stdout s; stderr := stderr s; content_dir := content_dir s |}.

(** [print(line)] *)
Definition print (line : string) : M run () :=
  modify (λ s, {| existing_urls := existing_urls s; ticks := ticks s;
                  stdout := stdout s ++ [line]; stderr := stderr s;
                  content_dir := content_dir s |}).

(** [print(line, file=sys.stderr)] *)
Definition print_err (line : string) : M run () :=
  modify (λ s, {| existing_urls := existing_urls s; ticks := ticks s;
                  stdout := stdout s; stderr := stderr s ++ [line];
                  content_dir := content_dir s |}).

(** A call to the world: it is answered at the current count, which then
    advances. *)
Definition call {A} (oracle : nat → exception + A) : M run A := λ s,
  match oracle (ticks s) with
  | inl e => (Raise e, tick s)
  | inr a => (Ok a, tick s)
  end.

(** [datetime.now(timezone.utc)] *)
Definition datetime_now `{World} : M run datetime :=
  call (λ t, inr (Datetime.replace_tzinfo_utc (clock t))).

Definition article_id (url : string) : string :=
  Py.take 12 (Hashlib.md5_hexdigest (Hashlib.encode url)).

Definition prompt (title description source : string) : string :=
  "Summarize this AI news article in 1-2 concise sentences "
  +:+ "for a news aggregator. Be factual and specific." +:+ nl +:+ nl
  +:+ "Title: " +:+ title +:+ nl +:+ "Source: " +:+ source +:+ nl
  +:+ "Description: " +:+ Py.take 1000 description.

(** The result is [None] or the text of the summary. *)
Definition summarize_with_claude `{World} (title description source : string)
  : M run (option string) :=
  if negb (truthy ANTHROPIC_API_KEY) || negb HAS_ANTHROPIC then mret None
  else
    try_except
      (response ← call (λ t, messages_create t
                          {| api_key := default "" ANTHROPIC_API_KEY;
                             model := "claude-sonnet-4-5-20250514";
                             max_tokens := 200;
                             message := prompt title description source |});
       match response with
       | text :: _ => mret (Some (Py.strip Py.isspace text))
       | [] => raise (Exc "IndexError" "list index out of range")
       end)
      (λ e, print_err ("  Claude API error: " +:+ exc_str e);; mret None).

(** The date of an entry, or [None] when the entry is older than the
    cutoff (the [continue] of the loop). *)
Definition entry_date `{World} (entry : gmap string string) (cutoff_date : datetime)
  : M run (option datetime) :=
  let date_str := py_or (entry !! "published") (entry !! "updated") in
  if truthy date_str then
    try_except
      (pub_date ← call (λ t, dateparser_parse t (default "" date_str));
       let pub_date :=
         match Datetime.tzinfo pub_date with
         | None => Datetime.replace_tzinfo_utc pub_date
         | Some _ => pub_date
         end in
       older ← lift (Datetime.lt pub_date cutoff_date);
       if older : bool then mret None else mret (Some pub_date))
      (λ _, now ← datetime_now; mret (Some now))
  else now ← datetime_now; mret (Some now).

(** The body of the loop of [fetch_feed] on one entry: the article it
    appends, or [None] when it goes on to the next entry. *)
Definition fetch_entry `{World} (name category : string) (cutoff_date : datetime)
    (entry : gmap string string) : M run (option Article) :=
  let link := default "" (entry !! "link") in
  s ← get_state;
  if String.eqb link "" || bool_decide (link ∈ existing_urls s) then mret None
  else
    pub_date ← entry_date entry cutoff_date;
    match pub_date with
    | None => mret None
    | Some pub_date =>
        let title := strip_html (default "Untitled" (entry !! "title")) in
        let description :=
          default "" (py_or (py_or (entry !! "summary") (entry !! "description"))
                            (Some "")) in
        let description_clean := truncate_description description 300 in
        summary ← summarize_with_claude title description_clean name;
        let summary := if truthy summary then default "" summary
                       else description_clean in
        let aid := article_id link in
        let slug := Datetime.strftime_Ymd pub_date +:+ "-" +:+ slugify title
                    +:+ "-" +:+ aid in
        let article :=
          {| title := title; url := link; source := name; category := category;
             date := Datetime.strftime_YmdTHMSZ pub_date;
             summary := summary; slug := slug |} in
        modify (set_existing_urls (λ urls, {[link]} ∪ urls));;
        mret (Some article)
    end.

(** [for entry in parsed.entries: ...], from the list [articles] built so
    far. *)
Fixpoint fetch_entries `{World} (name category : string) (cutoff_date : datetime)
    (entries : list (gmap string string)) (articles : list Article)
  : M run (list Article) :=
  match entries with
  | [] => mret articles
  | entry :: rest =>
      a ← fetch_entry name category cutoff_date entry;
      fetch_entries name category cutoff_date rest
        (match a with Some a => articles ++ [a] | None => articles end)
  end.

Definition fetch_feed `{World} (feed_config : gmap string string)
    (cutoff_date : datetime) : M run (list Article) :=
  name ← getitem feed_config "name";
  url ← getitem feed_config "url";
  let category := default "general" (feed_config !! "category") in
  print ("Fetching: " +:+ name);;
  parsed ← try_except
    (parsed ← call (λ t, feedparser_parse t url); mret (Some parsed))
    (λ e, print_err ("  Error parsing " +:+ name +:+ ": " +:+ exc_str e);;
          mret None);
  match parsed with
  | None => mret []
  | Some parsed =>
      if bozo parsed && bool_decide (entries parsed = []) then
        print_err ("  Warning: feed error for " +:+ name +:+ ": "
                   +:+ bozo_exception parsed);;
        mret []
      else
        articles ← fetch_entries name category cutoff_date (entries parsed) [];
        print ("  Found " +:+ pretty (length articles) +:+ " new articles");;
        mret articles
  end.

(** [write_article]: the post goes to the file [slug.md]; the result is
    the name of the file. *)
Definition write_article (article : Article) : M run string :=
  let name := slug article +:+ ".md" in
  let p :=
    {| metadata :=
         <["title" := title article]> (<["url" := url article]>
         (<["source" := source article]> (<["category" := category article]>
         (<["date" := date article]> (<["slug" := slug article]> ∅)))));
       content := summary article |} in
  modify (λ s, {| existing_urls := existing_urls s; ticks := ticks s;
                  stdout := stdout s; stderr := stderr s;
                  content_dir := <[name := inr p]> (content_dir s) |});;
  mret name.

(** [name.endswith(".md")]: the files that [glob("*.md")] yields *)
Definition is_md (name : string) : bool :=
  String.eqb (String.substring (String.length name - 3) 3 name) ".md".

(** [get_existing_urls]: the [url] of every file that loads. *)
Definition get_existing_urls : M run (gset string) :=
  s ← get_state;
  mret (list_to_set
          (omap (λ '(name, loaded),
                   match loaded with
                   | inr p => if is_md name then metadata p !! "url" else None
                   | inl _ => None
                   end)
                (map_to_list (content_dir s)))).

Definition load_feeds `{World} : M run (list (gmap string string)) :=
  lift yaml_feeds.

(** [for article in articles: ...] in [main] *)
Fixpoint write_articles (articles : list Article) (total_new : nat) : M run nat :=
  match articles with
  | [] => mret total_new
  | article :: rest =>
      path ← write_article article;
      print ("  Wrote: " +:+ path);;
      write_articles rest (S total_new)
  end.

(** [for feed_config in feeds: ...] in [main] *)
Fixpoint fetch_feeds `{World} (feeds : list (gmap string string))
    (cutoff_date : datetime) (total_new : nat) : M run nat :=
  match feeds with
  | [] => mret total_new
  | feed_config :: rest =>
      articles ← fetch_feed feed_config cutoff_date;
      total_new ← write_articles articles total_new;
      fetch_feeds rest cutoff_date total_new
  end.

Definition main `{World} : M run nat :=
  feeds ← load_feeds;
  urls ← get_existing_urls;
  modify (set_existing_urls (λ _, urls));;
  now ← datetime_now;
  cutoff_date ← lift (Datetime.sub_days now 7);
  total_new ← fetch_feeds feeds cutoff_date 0;
  print (nl +:+ "Done. " +:+ pretty total_new +:+ " new articles fetched.");;
  mret total_new.


(** ** build_site.py: the builder *)

Definition SITE_URL : string := "https://elloloop.github.io/ai-news".
Definition SITE_TITLE : string := "AI News".
Definition SITE_DESCRIPTION : string :=
  "Curated AI and machine learning news from top sources".

(** What a template is rendered from. *)
Inductive value : Type :=
| Str (s : string)
| Int (n : nat)
| Dict (a : gmap string string)
| Dicts (l : list (gmap string string))
| Groups (g : list (string * list (gmap string string))).

Definition context : Type := list (string * value).

(** The surroundings of a build: the directory of the project, the
    clock, the templates ([env.get_template] under the given globals gives
    the function that renders, or raises), [datetime.fromisoformat], the
    two directories that may exist, and the files of the content
    directory. *)
Class Site : Type := {
  ROOT : string;
  build_clock : datetime;
  get_template : context → string → exception + (context → exception + string);
  fromisoformat : string → exception + datetime;
  output_dir_exists : bool;
  static_dir_exists : bool;
  content_files : gmap string (exception + post)
}.

Inductive fs_action : Type :=
| Rmtree (path : string)
| Mkdir (path : string)
| Copytree (src dst : string)
| WriteText (path text : string).

(** The state of a build: the lines printed and what was done to the
    file system, in order. *)
Record build : Type := {
  printed : list string;
  actions : list fs_action
}.

Definition echo (line : string) : M build () :=
  modify (λ s, {| printed := printed s ++ [line]; actions := actions s |}).

Definition act (a : fs_action) : M build () :=
  modify (λ s, {| printed := printed s; actions := actions s ++ [a] |}).

(** [dir / name], for a name that is already normal *)
Definition joinpath (dir name : string) : string :=
  if Py.head name is Some "/"%char then name else dir +:+ "/" +:+ name.

Definition CONTENT_DIR `{Site} : string := joinpath (joinpath ROOT "content") "articles".
Definition TEMPLATES_DIR `{Site} : string := joinpath ROOT "templates".
Definition STATIC_DIR `{Site} : string := joinpath ROOT "static".
Definition OUTPUT_DIR `{Site} : string := joinpath ROOT "_site".

(** [sorted(l, key=key, reverse=True)] and [l.sort(key=key, reverse=True)]:
    the stable sort into descending order of the keys, strings compared
    code point by code point. *)
Fixpoint insert_reverse {A} (key : A → string) (x : A) (l : list A) : list A :=
  match l with
  | [] => [x]
  | y :: l' =>
      if String.ltb (key x) (key y) then y :: insert_reverse key x l'
      else x :: l
  end.

Definition sort_reverse {A} (key : A → string) (l : list A) : list A :=
  foldr (insert_reverse key) [] l.

(** [a.get("date", "")] *)
Definition date_key (a : gmap string string) : string := default "" (a !! "date").

(** The loop of [load_articles] over the files. *)
Fixpoint load_files (files : list (string * (exception + post)))
    (articles : list (gmap string string)) : M build (list (gmap string string)) :=
  match files with
  | [] => mret articles
  | (name, inr p) :: rest =>
      load_files rest (articles ++ [<["body" := content p]> (metadata p)])
  | (name, inl e) :: rest =>
      echo ("  Skipping " +:+ name +:+ ": " +:+ exc_str e);;
      load_files rest articles
  end.

Definition load_articles `{Site} : M build (list (gmap string string)) :=
  let files :=
    sort_reverse fst (filter (λ f, is_md f.1) (map_to_list content_files)) in
  articles ← load_files files [];
  mret (sort_reverse date_key articles).

(** [groups.setdefault(k, []).append(a)] on a dict, whose keys keep the
    order of their insertion. *)
Fixpoint setdefault_append {A} (k : string) (a : A) (groups : list (string * list A))
  : list (string * list A) :=
  match groups with
  | [] => [(k, [a])]
  | (k', l) :: rest =>
      if String.eqb k k' then (k', l ++ [a]) :: rest
      else (k', l) :: setdefault_append k a rest
  end.

Definition group_by {A} (key : A → string) (l : list A) : list (string * list A) :=
  fold_left (λ groups a, setdefault_append (key a) a groups) l [].

(** [s.replace(c, r)] for a character [c] *)
Fixpoint replace_char (c : ascii) (r : string) (s : string) : string :=
  match s with
  | "" => ""
  | String d s' =>
      if (d =? c)%char then r +:+ replace_char c r s'
      else String d (replace_char c r s')
  end.

Definition month_key `{Site} (a : gmap string string) : string :=
  match fromisoformat (replace_char "Z" "+00:00" (date_key a)) with
  | inr dt => Datetime.strftime_BY dt
  | inl _ => "Unknown"
  end.

(** An entry of the sitemap, a dict of two keys. *)
Record sitemap_entry : Type := { loc : string; priority : string }.

Definition sitemap_entries (articles : list (gmap string string)) : list sitemap_entry :=
  let entries := [ {| loc := SITE_URL +:+ "/"; priority := "1.0" |} ] in
  let entries := entries ++ [ {| loc := SITE_URL +:+ "/archive.html";
                                 priority := "0.8" |} ] in
  fold_left
    (λ entries article,
       let slug := default "" (article !! "slug") in
       entries ++ [ {| loc := SITE_URL +:+ "/article/" +:+ slug +:+ ".html";
                       priority := "0.6" |} ])
    articles entries.

Definition sitemap_url (entry : sitemap_entry) : string :=
  "  <url>" +:+ nl +:+ "    <loc>" +:+ loc entry +:+ "</loc>" +:+ nl
  +:+ "    <priority>" +:+ priority entry +:+ "</priority>" +:+ nl
  +:+ "  </url>" +:+ nl.

Definition sitemap_xml (entries : list sitemap_entry) : string :=
  let xml := "<?xml version=" +:+ String "034" "1.0" +:+ String "034" " encoding="
             +:+ String "034" "UTF-8" +:+ String "034" "?>" +:+ nl in
  let xml := xml +:+ "<urlset xmlns=" +:+ String "034"
               "http://www.sitemaps.org/schemas/sitemap/0.9"
             +:+ String "034" ">" +:+ nl in
  let xml := fold_left (λ xml entry, xml +:+ sitemap_url entry) entries xml in
  xml +:+ "</urlset>" +:+ nl.

Definition robots_txt : string :=
  "User-agent: *" +:+ nl +:+ "Allow: /" +:+ nl
  +:+ "Sitemap: " +:+ SITE_URL +:+ "/sitemap.xml" +:+ nl.

(** The name of the page of an article under the [article] directory. *)
Definition article_page (article : gmap string string) : string :=
  default "untitled" (article !! "slug") +:+ ".html".

(** The loop over the articles that writes their pages. *)
Fixpoint build_pages (render : context → exception + string) (articles_out : string)
    (articles : list (gmap string string)) : M build () :=
  match articles with
  | [] => mret ()
  | article :: rest =>
      html ← lift (render [("article", Dict article)]);
      act (WriteText (joinpath articles_out (article_page article)) html);;
      build_pages render articles_out rest
  end.

(** [env.globals] *)
Definition globals `{Site} : context :=
  [("site_url", Str SITE_URL); ("site_title", Str SITE_TITLE);
   ("site_description", Str SITE_DESCRIPTION);
   ("now", Str (Datetime.strftime_YmdTHMSZ build_clock))].

Definition build_site `{Site} : M build () :=
  articles ← load_articles;
  echo ("Loaded " +:+ pretty (length articles) +:+ " articles");;
  (if output_dir_exists then act (Rmtree OUTPUT_DIR) else mret ());;
  act (Mkdir OUTPUT_DIR);;
  (if static_dir_exists
   then act (Copytree STATIC_DIR (joinpath OUTPUT_DIR "static")) else mret ());;
  let categories := group_by (λ a, default "general" (a !! "category")) articles in
  index_tmpl ← lift (get_template globals "index.html");
  index_html ← lift (index_tmpl [("articles", Dicts (take 30 articles));
                                 ("categories", Groups categories)]);
  act (WriteText (joinpath OUTPUT_DIR "index.html") index_html);;
  echo "Built: index.html";;
  article_tmpl ← lift (get_template globals "article.html");
  let articles_out := joinpath OUTPUT_DIR "article" in
  act (Mkdir articles_out);;
  build_pages article_tmpl articles_out articles;;
  echo ("Built: " +:+ pretty (length articles) +:+ " article pages");;
  archive_tmpl ← lift (get_template globals "archive.html");
  let months := group_by month_key articles in
  archive_html ← lift (archive_tmpl [("months", Groups months);
                                     ("total", Int (length articles))]);
  act (WriteText (joinpath OUTPUT_DIR "archive.html") archive_html);;
  echo "Built: archive.html";;
  act (WriteText (joinpath OUTPUT_DIR "sitemap.xml")
         (sitemap_xml (sitemap_entries articles)));;
  echo "Built: sitemap.xml";;
  act (WriteText (joinpath OUTPUT_DIR "robots.txt") robots_txt);;
  echo "Built: robots.txt";;
  echo (nl +:+ "Site built to " +:+ OUTPUT_DIR).


(** ** Test doubles

    A world and a site small enough to run: one feed of two entries, a
    date parser that knows the two dates, a clock that stands still, and
    templates that print what they are given. *)

Module Demo.

Definition entry1 : gmap string string :=
  list_to_map [("title", "GPT-5 Launches"); ("link", "https://x.com/1");
               ("published", "2024-01-15T10:30:00Z");
               ("summary", "<p>The new model   is out.</p>")].


Definition entry_undated : gmap string string :=
  list_to_map [("title", "No date"); ("link", "https://x.com/2")].

Definition feed : gmap string string :=
  list_to_map [("name", "X Blog"); ("url", "https://x.com/feed");
               ("category", "labs")].

Definition broken_feed : gmap string string :=
  list_to_map [("name", "Down"); ("url", "https://down.example/feed")].

Definition now : datetime := Datetime.mk 2024 1 15 10 30 0 0 (Some 0%Z).

Definition cutoff : datetime := Datetime.mk 2024 1 8 10 30 0 0 (Some 0%Z).

Definition parse_date (s : string) : exception + datetime :=
  if String.eqb s "2024-01-15T10:30:00Z" then inr now
  else if String.eqb s "2024-01-01T00:00:00Z"
       then inr (Datetime.mk 2024 1 1 0 0 0 0 None)
       else inl (Exc "ParserError" ("Unknown string format: " +:+ s)).

Definition parse_feed (entries : list (gmap string string)) (u : string)
  : exception + parsed_feed :=
  if String.eqb u "https://x.com/feed"
  then inr {| bozo := false; bozo_exception := ""; entries := entries |}
  else inl (Exc "URLError" "connection refused").

(** The entity table that changes nothing. *)
Definition html : Html := {| charref_sub := λ s, s |}.

(** A world with the given key for the summarizer, whose every call to
    the summarizer fails. *)
Definition world (key : option string) (entries : list (gmap string string)) : World :=
  {| world_html := html;
     ANTHROPIC_API_KEY := key;
     HAS_ANTHROPIC := true;
     messages_create := λ _ _, inl (Exc "APIConnectionError" "Connection error.");
     feedparser_parse := λ _, parse_feed entries;
     dateparser_parse := λ _, parse_date;
     clock := λ _, now;
     yaml_feeds := inr [broken_feed; feed] |}.

Definition start (urls : list string) : run :=
  {| existing_urls := list_to_set urls; ticks := 0;
     stdout := []; stderr := []; content_dir := ∅ |}.

Definition stored (slug date : string) : exception + post :=
  inr {| metadata := list_to_map [("slug", slug); ("date", date)]; content := "" |}.

Definition template (name : string) (ctx : context) : exception + string :=
  inr (name +:+ ":"
       +:+ match ctx with
           | (_, Dicts l) :: _ => pretty (length l)
           | (_, Dict a) :: _ => default "?" (a !! "slug")
           | _ => ""
           end).

Definition site (files : gmap string (exception + post)) : Site :=
  {| ROOT := "/repo";
     build_clock := now;
     get_template := λ _ name, inr (template name);
     fromisoformat := λ s, inl (Exc "ValueError" ("Invalid isoformat string: " +:+ s));
     output_dir_exists := false;
     static_dir_exists := false;
     content_files := files |}.

Definition fresh : build := {| printed := []; actions := [] |}.

End Demo.

(** ** The predicates of the properties *)

(** A character of a slug: a hyphen, an underscore, or a letter or a
    number that is not in upper case. *)
Definition slug_char (c : ascii) : bool :=
  (c =? "-")%char || (c =? "_")%char || (Py.isalnum c && negb (Py.isupper c)).

(** A title of 81 characters: 79 letters, a space and a letter. *)
Definition long_title : string :=
  "aaaaaaaaaaaaaaaaaaaaaaaaaaaaaaaaaaaaaaaaaaaaaaaaaaaaaaaaaaaaaaaaaaaaaaaaaaaaaaa b".

(** A cut of [s] after [k] characters falls inside a word: the characters
    on both sides of it are there and neither is a space. *)
Definition splits_word (s : string) (k : nat) : bool :=
  match k with
  | O => false
  | S k' =>
      match String.get k' s, String.get k s with
      | Some a, Some b => negb (a =? " ")%char && negb (b =? " ")%char
      | _, _ => false
      end
  end.

(** The parts of an entry that [fetch_feed] reads, and the article it
    makes of an entry whose date is [pub_date] when the summarizer
    returned [summarized]. *)
Definition entry_link (entry : gmap string string) : string :=
  default "" (entry !! "link").

Definition entry_title `{Html} (entry : gmap string string) : string :=
  strip_html (default "Untitled" (entry !! "title")).

Definition entry_description `{Html} (entry : gmap string string) : string :=
  truncate_description
    (default "" (py_or (py_or (entry !! "summary") (entry !! "description"))
                       (Some ""))) 300.

Definition entry_article `{Html} (name category : string) (entry : gmap string string)
    (pub_date : datetime) (summarized : option string) : Article :=
  {| title := entry_title entry;
     url := entry_link entry;
     source := name;
     category := category;
     date := Datetime.strftime_YmdTHMSZ pub_date;
     summary := if truthy summarized then default "" summarized
                else entry_description entry;
     slug := Datetime.strftime_Ymd pub_date +:+ "-" +:+ slugify (entry_title entry)
             +:+ "-" +:+ article_id (entry_link entry) |}.

(** The summarizer is not configured. *)
Definition unavailable `{World} : bool :=
  negb (truthy ANTHROPIC_API_KEY) || negb HAS_ANTHROPIC.

(** What the summarizer may do to the state: it makes calls and writes to
    the error stream, and leaves the urls and the files as they are. *)
Definition quiet (s s' : run) : Prop :=
  existing_urls s' = existing_urls s ∧ content_dir s' = content_dir s
  ∧ stdout s' = stdout s.

(** The slug of a title, a date and a url. *)
Definition slug_of `{Html} (title : string) (pub_date : datetime) (url : string) : string :=
  Datetime.strftime_Ymd pub_date +:+ "-" +:+ slugify title +:+ "-"
  +:+ Py.take 12 (Hashlib.md5_hexdigest (Hashlib.encode url)).

Definition is_hex (c : ascii) : bool :=
  Py.in_range 0x30 0x39 c || Py.in_range 0x61 0x66 c.

(** The date of an entry in the words of the specification: the
    [published] field, else the [updated] field, parsed and taken as UTC
    when it names no zone; the time of the clock when both are missing or
    the field does not parse. [t] is the count of the calls made when the
    entry is reached. *)
Definition resolved_date `{World} (entry : gmap string string) (t : nat) : datetime :=
  let field := if truthy (entry !! "published") then entry !! "published"
               else entry !! "updated" in
  match field with
  | Some text =>
      if String.eqb text "" then Datetime.replace_tzinfo_utc (clock t)
      else
        match dateparser_parse t text with
        | inr d => if Datetime.tzinfo d is Some _ then d
                   else Datetime.replace_tzinfo_utc d
        | inl _ => Datetime.replace_tzinfo_utc (clock (S t))
        end
  | None => Datetime.replace_tzinfo_utc (clock t)
  end.

(** The articles of the files that load, in the order of the files. *)
Definition loaded_articles (files : list (string * (exception + post)))
  : list (gmap string string) :=
  omap (λ f, match f.2 with
             | inr p => Some (<["body" := content p]> (metadata p))
             | inl _ => None
             end) files.

(** The files that [load_articles] reads, in the order it reads them. *)
Definition article_files `{Site} : list (string * (exception + post)) :=
  sort_reverse fst (filter (λ f, is_md f.1) (map_to_list content_files)).

(** [a] comes before [b] in the descending order of the keys, code point
    by code point. *)
Definition descending {A} (key : A → string) (a b : A) : Prop :=
  String.leb (key b) (key a) = true.

(** The entry of an article in the sitemap. *)
Definition article_entry (article : gmap string string) : sitemap_entry :=
  {| loc := SITE_URL +:+ "/article/" +:+ default "" (article !! "slug") +:+ ".html";
     priority := "0.6" |}.

Definition root_entry : sitemap_entry :=
  {| loc := SITE_URL +:+ "/"; priority := "1.0" |}.

Definition archive_entry : sitemap_entry :=
  {| loc := SITE_URL +:+ "/archive.html"; priority := "0.8" |}.

(** The first two lines of the sitemap. *)
Definition sitemap_header : string :=
  "<?xml version=" +:+ String "034" "1.0" +:+ String "034" " encoding="
  +:+ String "034" "UTF-8" +:+ String "034" "?>" +:+ nl
  +:+ "<urlset xmlns=" +:+ String "034" "http://www.sitemaps.org/schemas/sitemap/0.9"
  +:+ String "034" ">" +:+ nl.

(** The strings of a list, one after the other. *)
Fixpoint concat_all (l : list string) : string :=
  match l with
  | [] => ""
  | x :: l' => x +:+ concat_all l'
  end.

(** What a build that ends well does to the file system, given the
    articles, the three rendered texts and the pages. *)
Definition site_actions `{Site} (articles : list (gmap string string))
    (index_html archive_html : string) (pages : list fs_action) : list fs_action :=
  (if output_dir_exists then [Rmtree OUTPUT_DIR] else [])
  ++ [Mkdir OUTPUT_DIR]
  ++ (if static_dir_exists
      then [Copytree STATIC_DIR (joinpath OUTPUT_DIR "static")] else [])
  ++ [WriteText (joinpath OUTPUT_DIR "index.html") index_html;
      Mkdir (joinpath OUTPUT_DIR "article")]
  ++ pages
  ++ [WriteText (joinpath OUTPUT_DIR "archive.html") archive_html;
      WriteText (joinpath OUTPUT_DIR "sitemap.xml")
        (sitemap_xml (sitemap_entries articles));
      WriteText (joinpath OUTPUT_DIR "robots.txt") robots_txt].

(** The page of an article as [render] makes it. *)
Definition is_page `{Site} (render : context → exception + string)
    (article : gmap string string) (a : fs_action) : Prop :=
  ∃ html, render [("article", Dict article)] = inr html
          ∧ a = WriteText (joinpath (joinpath OUTPUT_DIR "article")
                             (article_page article)) html.

(** A character that stripped text may hold: a space, or a character
    that is not white space. *)
Definition plain_char (c : ascii) : bool := (c =? " ")%char || negb (Py.isspace c).

(** The urls that [get_existing_urls] collects from a content directory:
    those of the files named [*.md] that load and have a [url]. *)
Definition stored_url (dir : gmap string (exception + post)) (u : string) : Prop :=
  ∃ name p, dir !! name = Some (inr p) ∧ is_md name = true
            ∧ metadata p !! "url" = Some u.

(** The keys of a list in the order of their first occurrence. *)
Fixpoint first_occurrences (l : list string) : list string :=
  match l with
  | [] => []
  | k :: l' => k :: filter (λ x, x ≠ k) (first_occurrences l')
  end.



(** What a build does to the file system before it looks for the first
    template. *)
Definition setup_actions `{Site} : list fs_action :=
  (if output_dir_exists then [Rmtree OUTPUT_DIR] else [])
  ++ [Mkdir OUTPUT_DIR]
  ++ (if static_dir_exists
      then [Copytree STATIC_DIR (joinpath OUTPUT_DIR "static")] else []).

(** A template double that cannot render an article without a slug. *)
Definition strict_template (name : string) (ctx : context) : exception + string :=
  match ctx with
  | (_, Dict a) :: _ =>
      match a !! "slug" with
      | Some slug => inr (name +:+ ":" +:+ slug)
      | None => inl (Exc "UndefinedError" "slug is undefined")
      end
  | _ => inr name
  end.

Definition strict_site (files : gmap string (exception + post)) : Site :=
  {| ROOT := "/repo";
     build_clock := Demo.now;
     get_template := λ _ name, inr (strict_template name);
     fromisoformat := λ s, inl (Exc "ValueError" ("Invalid isoformat string: " +:+ s));
     output_dir_exists := true;
     static_dir_exists := false;
     content_files := files |}.

(** What [build_site] does once the directory of the pages is made. *)
Definition build_rest `{Site} (articles : list (gmap string string))
    (article_tmpl : context → exception + string) : M build () :=
  build_pages article_tmpl (joinpath OUTPUT_DIR "article") articles;;
  echo ("Built: " +:+ pretty (length articles) +:+ " article pages");;
  archive_tmpl ← lift (get_template globals "archive.html");
  archive_html ← lift (archive_tmpl [("months", Groups (group_by month_key articles));
                                     ("total", Int (length articles))]);
  act (WriteText (joinpath OUTPUT_DIR "archive.html") archive_html);;
  echo "Built: archive.html";;
  act (WriteText (joinpath OUTPUT_DIR "sitemap.xml")
         (sitemap_xml (sitemap_entries articles)));;
  echo "Built: sitemap.xml";;
  act (WriteText (joinpath OUTPUT_DIR "robots.txt") robots_txt);;
  echo "Built: robots.txt";;
  echo (nl +:+ "Site built to " +:+ OUTPUT_DIR).


(** No tag is left in [s]: a ["<"] of [s] is the last character, or is
    followed at once by [">"], or has no [">"] after it, so that the
    pattern of [strip_html] matches nowhere. *)
Fixpoint tag_free (s : string) : bool :=
  match s with
  | "" => true
  | String c s' =>
      (negb (c =? "<")%char
       || match s' with
          | "" => true
          | String d _ => (d =? ">")%char || negb (Py.contains ">" s')
          end)
      && tag_free s'
  end.

(** * Properties *)

#[local] Set Warnings "-clear-no-such-hyp".

(** ** Strings *)

Lemma str_app_cons c s t : String c s +:+ t = String c (s +:+ t).
Proof. reflexivity. Qed.

Lemma str_app_nil_l t : "" +:+ t = t.
Proof. reflexivity. Qed.

Lemma str_app_nil_r s : s +:+ "" = s.
Proof. induction s as [|c s IH]; [done|]. by rewrite str_app_cons, IH. Qed.

Lemma str_app_assoc s t u : (s +:+ t) +:+ u = s +:+ (t +:+ u).
Proof. induction s as [|c s IH]; [done|]. by rewrite !str_app_cons, IH. Qed.

Lemma str_length_app s t : String.length (s +:+ t) = String.length s + String.length t.
Proof. induction s as [|c s IH]; [done|]. rewrite str_app_cons. simpl. by rewrite IH. Qed.

Lemma get_app_length p c r : String.get (String.length p) (p +:+ String c r) = Some c.
Proof. induction p as [|a p IH]; [done|]. rewrite str_app_cons. simpl. exact IH. Qed.

Lemma take_length n s : String.length (Py.take n s) = n `min` String.length s.
Proof.
  revert n. induction s as [|c s IH]; intros [|n]; simpl; try done.
  by rewrite IH.
Qed.

Lemma take_all n s : String.length s ≤ n → Py.take n s = s.
Proof.
  revert n. induction s as [|c s IH]; intros [|n] Hn; simpl in *; try done; try lia.
  rewrite IH; [done|lia].
Qed.

Lemma take_prefix n s : ∃ r, s = Py.take n s +:+ r.
Proof.
  revert n. induction s as [|c s IH]; intros [|n]; simpl.
  - by exists "".
  - by exists "".
  - by exists (String c s).
  - destruct (IH n) as [r Hr]. exists r. by rewrite str_app_cons, <-Hr.
Qed.

Lemma all_app p s t : Py.all p (s +:+ t) = Py.all p s && Py.all p t.
Proof.
  induction s as [|c s IH]; [done|]. rewrite str_app_cons. simpl.
  by rewrite IH, andb_assoc.
Qed.

Lemma all_impl (p q : ascii → bool) s :
  (∀ c, p c = true → q c = true) → Py.all p s = true → Py.all q s = true.
Proof.
  intros Hpq. induction s as [|c s IH]; [done|]. simpl.
  intros [Hc Hs]%andb_true_iff. by rewrite (Hpq _ Hc), IH.
Qed.

Lemma all_prefix p s t : Py.all p (s +:+ t) = true → Py.all p s = true.
Proof. rewrite all_app. by intros [? _]%andb_true_iff. Qed.

Lemma no_repeat_prefix c s t : Py.no_repeat c (s +:+ t) = true → Py.no_repeat c s = true.
Proof.
  induction s as [|a s IH]; [done|]. destruct s as [|b s]; [done|].
  rewrite !str_app_cons. rewrite !str_app_cons in IH. simpl in *.
  intros [-> H]%andb_true_iff. by rewrite IH.
Qed.

Lemma no_repeat_tail c a s : Py.no_repeat c (String a s) = true → Py.no_repeat c s = true.
Proof. destruct s as [|b s]; [done|]. simpl. by intros [_ ?]%andb_true_iff. Qed.

Lemma lstrip_suffix cls s : ∃ r, s = r +:+ Py.lstrip cls s.
Proof.
  induction s as [|c s [r IH]]; simpl; [by exists ""|].
  destruct (cls c).
  - exists (String c r). by rewrite str_app_cons, <-IH.
  - by exists "".
Qed.

Lemma lstrip_head cls s a : Py.head (Py.lstrip cls s) = Some a → cls a = false.
Proof.
  induction s as [|c s IH]; simpl; [done|].
  destruct (cls c) eqn:Hc; [done|]. simpl. by intros [= <-].
Qed.

Lemma rstrip_prefix cls s : ∃ r, s = Py.rstrip cls s +:+ r.
Proof.
  induction s as [|c s [r IH]]; simpl; [by exists ""|].
  destruct (Py.rstrip cls s) as [|b t] eqn:Ht.
  - destruct (cls c).
    + by exists (String c s).
    + exists s. done.
  - exists r. by rewrite str_app_cons, <-IH.
Qed.

Lemma rstrip_head cls s : Py.rstrip cls s ≠ "" → Py.head (Py.rstrip cls s) = Py.head s.
Proof.
  destruct s as [|c s]; [done|]. simpl.
  destruct (Py.rstrip cls s); [|done]. by destruct (cls c).
Qed.

Lemma rstrip_last cls s a : Py.last (Py.rstrip cls s) = Some a → cls a = false.
Proof.
  induction s as [|c s IH]; simpl; [done|].
  destruct (Py.rstrip cls s) as [|b t] eqn:Ht.
  - destruct (cls c) eqn:Hc; simpl; [done|]. by intros [= <-].
  - exact IH.
Qed.

Lemma no_repeat_suffix c s t : Py.no_repeat c (s +:+ t) = true → Py.no_repeat c t = true.
Proof.
  induction s as [|a s IH]; [done|]. rewrite str_app_cons.
  intros H. apply IH. by eapply no_repeat_tail.
Qed.

Lemma all_suffix p s t : Py.all p (s +:+ t) = true → Py.all p t = true.
Proof. rewrite all_app. by intros [_ ?]%andb_true_iff. Qed.

Lemma take_head n s a : Py.head (Py.take n s) = Some a → Py.head s = Some a.
Proof. destruct n, s; simpl; done. Qed.

Lemma all_map p f s : (∀ c, p (f c) = true) → Py.all p (Py.str_map f s) = true.
Proof. intros Hf. induction s as [|c s IH]; [done|]. simpl. by rewrite Hf, IH. Qed.

Lemma all_re_delete_except keep p s :
  Py.all p s = true →
  Py.all (λ c, p c && keep c) (Py.re_delete_except keep s) = true.
Proof.
  induction s as [|c s IH]; [done|]. simpl.
  intros [Hc Hs]%andb_true_iff. destruct (keep c) eqn:Hk; simpl; auto.
  by rewrite Hc, Hk, IH.
Qed.

Lemma all_re_sub_runs cls r p b s :
  Py.all p s = true →
  Py.all (λ c, (c =? r)%char || (p c && negb (cls c)))
         (Py.re_sub_runs_from cls r b s) = true.
Proof.
  revert b. induction s as [|c s IH]; intros b; [done|]. simpl.
  intros [Hc Hs]%andb_true_iff. destruct (cls c) eqn:Hk.
  - destruct b; simpl; rewrite ?IH, ?Ascii.eqb_refl; done.
  - simpl. by rewrite Hc, Hk, IH, orb_true_r.
Qed.

(** After a run was replaced, the next character that comes out is not
    the replacement. *)
Lemma re_sub_runs_no_repeat cls r b s :
  cls r = true →
  Py.no_repeat r (Py.re_sub_runs_from cls r b s) = true
  ∧ (b = true → Py.head (Py.re_sub_runs_from cls r b s) ≠ Some r).
Proof.
  intros Hr. revert b. induction s as [|c s IH]; intros b; [done|]. simpl.
  destruct (cls c) eqn:Hc.
  - destruct b; [apply IH|]. split; [|done].
    destruct (IH true) as [Hn Hh].
    destruct (Py.re_sub_runs_from cls r true s) as [|a t] eqn:Ht; [done|].
    change (negb ((r =? r)%char && (a =? r)%char) && Py.no_repeat r (String a t) = true).
    rewrite Hn, andb_true_r, Ascii.eqb_refl. simpl.
    apply negb_true_iff, Ascii.eqb_neq. intros ->. by apply Hh.
  - assert (c ≠ r) as Hcr by congruence.
    split; [|intros _ [=]; done].
    destruct (IH false) as [Hn _].
    destruct (Py.re_sub_runs_from cls r false s) as [|a t] eqn:Ht; [done|].
    change (negb ((c =? r)%char && (a =? r)%char) && Py.no_repeat r (String a t) = true).
    rewrite Hn, andb_true_r. apply Ascii.eqb_neq in Hcr. by rewrite Hcr.
Qed.

Lemma lower_char_not_upper c : Py.isupper (Py.lower_char c) = false.
Proof. by destruct c as [[] [] [] [] [] [] [] []]. Qed.

(** ** slugify *)

(** Below U+0080 the characters of a slug are [a-z], [0-9], ["_"] and ["-"]. *)
Lemma slug_char_ascii c :
  slug_char c = true → (Py.ord c < 128)%N →
  Py.in_range 0x61 0x7a c || Py.in_range 0x30 0x39 c
  || (c =? "_")%char || (c =? "-")%char = true.
Proof. destruct c as [[] [] [] [] [] [] [] []]; by vm_compute. Qed.

Lemma slugify_chars `{Html} text : Py.all slug_char (slugify text) = true.
Proof.
  unfold slugify, Py.strip, Py.re_sub_runs, Py.lower.
  set (s2 := Py.re_delete_except _ _).
  set (s3 := Py.re_sub_runs_from _ _ _ _).
  destruct (take_prefix 80 (Py.rstrip (λ c, (c =? "-")%char) (Py.lstrip (λ c, (c =? "-")%char) s3)))
    as [r1 H1].
  destruct (rstrip_prefix (λ c, (c =? "-")%char) (Py.lstrip (λ c, (c =? "-")%char) s3))
    as [r2 H2].
  destruct (lstrip_suffix (λ c, (c =? "-")%char) s3) as [r3 H3].
  assert (Py.all slug_char s3 = true) as Hs3.
  { subst s3. eapply all_impl; [|apply all_re_sub_runs, all_re_delete_except,
      (all_map (λ c, negb (Py.isupper c)))].
    - intros c. unfold slug_char, Py.re_word. simpl.
      destruct (c =? "-")%char, (c =? "_")%char, (Py.isalnum c), (Py.isupper c),
        (Py.isspace c); simpl; done.
    - intros c. by rewrite lower_char_not_upper. }
  rewrite H3 in Hs3. apply all_suffix in Hs3.
  rewrite H2 in Hs3. apply all_prefix in Hs3.
  rewrite H1 in Hs3. by apply all_prefix in Hs3.
Qed.

Lemma slugify_no_repeat `{Html} text : Py.no_repeat "-" (slugify text) = true.
Proof.
  unfold slugify, Py.strip, Py.re_sub_runs.
  set (s3 := Py.re_sub_runs_from _ _ _ _).
  set (hy := λ c, (c =? "-")%char).
  destruct (take_prefix 80 (Py.rstrip hy (Py.lstrip hy s3))) as [r1 H1].
  destruct (rstrip_prefix hy (Py.lstrip hy s3)) as [r2 H2].
  destruct (lstrip_suffix hy s3) as [r3 H3].
  assert (Py.no_repeat "-" s3 = true) as Hs3 by (by apply re_sub_runs_no_repeat).
  rewrite H3 in Hs3. apply no_repeat_suffix in Hs3.
  rewrite H2 in Hs3. apply no_repeat_prefix in Hs3.
  rewrite H1 in Hs3. by apply no_repeat_prefix in Hs3.
Qed.

Lemma slugify_head `{Html} text : Py.head (slugify text) ≠ Some "-"%char.
Proof.
  unfold slugify, Py.strip. set (s3 := Py.re_sub_runs _ _ _).
  set (hy := λ c, (c =? "-")%char). intros Hh%take_head.
  destruct (decide (Py.rstrip hy (Py.lstrip hy s3) = "")) as [He|Hne].
  - by rewrite He in Hh.
  - rewrite rstrip_head in Hh by done. by apply lstrip_head in Hh.
Qed.

Lemma slugify_length `{Html} text : String.length (slugify text) ≤ 80.
Proof. unfold slugify. rewrite take_length. lia. Qed.

Lemma slugify_last `{Html} text :
  Py.last (slugify text) = Some "-"%char → String.length (slugify text) = 80.
Proof.
  unfold slugify, Py.strip. set (s3 := Py.re_sub_runs _ _ _).
  set (hy := λ c, (c =? "-")%char). set (t := Py.rstrip hy (Py.lstrip hy s3)).
  destruct (decide (String.length t ≤ 80)) as [Hle|Hgt].
  - rewrite take_all by done. by intros Hl%rstrip_last.
  - intros _. rewrite take_length. lia.
Qed.

(** What holds of every slug. For every text, [slugify] returns at most 80
    characters, each a hyphen, an underscore, or a letter or number that
    is not in upper case among the characters of the embedding (below
    U+0080: a-z, 0-9, underscore, hyphen); no two
    hyphens are neighbours and the first character is not a hyphen; the
    last character is a hyphen only when the slug has all of its 80
    characters, that is, only where the cut at 80 left one. *)
Theorem slugify_shape `{Html} (text : string) :
  String.length (slugify text) ≤ 80
  ∧ Py.all slug_char (slugify text) = true
  ∧ Py.all (λ c, negb (Py.ord c <? 128)%N
                 || Py.in_range 0x61 0x7a c || Py.in_range 0x30 0x39 c
                 || (c =? "_")%char || (c =? "-")%char) (slugify text) = true
  ∧ Py.no_repeat "-" (slugify text) = true
  ∧ Py.head (slugify text) ≠ Some "-"%char
  ∧ (Py.last (slugify text) = Some "-"%char → String.length (slugify text) = 80).
Proof.
  split_and!.
  - apply slugify_length.
  - apply slugify_chars.
  - eapply all_impl; [|apply slugify_chars]. intros c Hc.
    destruct (Py.ord c <? 128)%N eqn:Hlt; simpl; [|done].
    apply N.ltb_lt in Hlt. exact (slug_char_ascii c Hc Hlt).
  - apply slugify_no_repeat.
  - apply slugify_head.
  - apply slugify_last.
Qed.

(** C9. [slugify] strips the hyphens at both ends and then cuts at 80
    characters, so the cut can leave a hyphen at the end: whatever the
    entity table, the slug of [long_title] is its 79 letters and a
    hyphen. *)
Lemma slugify_trailing_hyphen :
  (∀ H : Html, slugify long_title = Py.take 79 long_title +:+ "-")
  ∧ Py.last (Py.take 79 long_title +:+ "-") = Some "-"%char.
Proof. split; [intros H|]; reflexivity. Qed.

(** ** truncate_description *)

Lemma rsplit1_head_sep sep s :
  Py.contains sep s = true → ∃ r, s = Py.rsplit1_head sep s +:+ String sep r.
Proof.
  induction s as [|c s IH]; [done|]. simpl.
  destruct (Py.contains sep s) eqn:Hs.
  - intros _. destruct (IH eq_refl) as [r Hr]. exists r.
    by rewrite str_app_cons, <-Hr.
  - rewrite orb_false_r. intros Hc. rewrite Hc.
    apply Ascii.eqb_eq in Hc as ->. by exists s.
Qed.

Lemma rsplit1_head_no_sep sep s :
  Py.contains sep s = false → Py.rsplit1_head sep s = s.
Proof.
  destruct s as [|c s]; [done|]. simpl.
  intros [Hc Hs]%orb_false_iff. by rewrite Hs, Hc.
Qed.

Lemma rsplit1_head_length sep s :
  String.length (Py.rsplit1_head sep s) ≤ String.length s.
Proof.
  destruct (Py.contains sep s) eqn:Hs.
  - destruct (rsplit1_head_sep sep s Hs) as [r Hr].
    rewrite Hr at 2. rewrite str_length_app. lia.
  - by rewrite rsplit1_head_no_sep.
Qed.

(** C3, as the code has it. For every text and every [max_chars] (10 and
    300 among them), with [t] the text stripped of its HTML:
    the result has at most [max_chars + 3] characters; it is [t] when [t]
    has at most [max_chars] characters; otherwise it is a part [p] of the
    first [max_chars] characters of [t] followed by the ellipsis, where,
    when those characters hold a space, [p] is followed by a space in [t]
    (the cut splits no word), and, when they hold none, [p] is all of
    them. *)
Theorem truncate_description_shape `{Html} (text : string) (max_chars : nat) :
  let t := strip_html text in
  let out := truncate_description text max_chars in
  String.length out ≤ max_chars + 3
  ∧ (String.length t ≤ max_chars → out = t)
  ∧ (max_chars < String.length t →
     ∃ p, out = p +:+ "..."
          ∧ String.length p ≤ max_chars
          ∧ (∃ r, t = p +:+ r)
          ∧ (Py.contains " " (Py.take max_chars t) = true →
               (∃ r, t = p +:+ String " " r)
               ∧ splits_word t (String.length p) = false)
          ∧ (Py.contains " " (Py.take max_chars t) = false →
               p = Py.take max_chars t)).
Proof.
  intros t out. subst out. unfold truncate_description. fold t.
  assert (String.length (Py.rsplit1_head " " (Py.take max_chars t)) ≤ max_chars) as Hp.
  { etrans; [apply rsplit1_head_length|]. rewrite take_length. lia. }
  destruct (String.length t <=? max_chars)%nat eqn:Hle.
  - apply Nat.leb_le in Hle. split_and!; [lia|done|lia].
  - apply Nat.leb_gt in Hle. split_and!.
    + rewrite str_length_app. simpl. lia.
    + lia.
    + intros _. exists (Py.rsplit1_head " " (Py.take max_chars t)).
      destruct (take_prefix max_chars t) as [r1 Hr1].
      split_and!; [done|done|..].
      * destruct (Py.contains " " (Py.take max_chars t)) eqn:Hc.
        -- destruct (rsplit1_head_sep _ _ Hc) as [r Hr].
           exists (String " " r +:+ r1). by rewrite <-str_app_assoc, <-Hr.
        -- rewrite rsplit1_head_no_sep by done. by exists r1.
      * intros Hc. destruct (rsplit1_head_sep _ _ Hc) as [r Hr].
        set (p := Py.rsplit1_head " " (Py.take max_chars t)) in *.
        assert (t = p +:+ String " " (r +:+ r1)) as Ht.
        { trans ((p +:+ String " " r) +:+ r1); [by rewrite <-Hr|by rewrite str_app_assoc]. }
        split; [by eexists|].
        clearbody p. unfold splits_word.
        destruct (String.length p) as [|k] eqn:Hk; [done|].
        assert (String.get (S k) t = Some " "%char) as ->.
        { rewrite <-Hk. clear -Ht. clearbody t. subst t. apply get_app_length. }
        destruct (String.get k t); [|done]. simpl. by rewrite andb_false_r.
      * intros Hc. by rewrite rsplit1_head_no_sep.
Qed.

(** C3, as the claim has it, fails: a first word longer than [max_chars]
    is cut inside. Whatever the entity table, the text of one word of 16
    letters, which is its own stripped text, is cut after its tenth
    letter. *)
Lemma truncate_description_splits_word :
  (∀ H : Html, strip_html "abcdefghijklmnop" = "abcdefghijklmnop")
  ∧ (∀ H : Html, truncate_description "abcdefghijklmnop" 10 = "abcdefghij" +:+ "...")
  ∧ splits_word "abcdefghijklmnop" (String.length "abcdefghij") = true.
Proof. split_and!; [intros H|intros H|]; reflexivity. Qed.

(** ** The monad *)

Lemma bind_unfold {S A B} (m : M S A) (f : A → M S B) s :
  (m ≫= f) s = match m s with
               | (Ok a, s') => f a s'
               | (Raise e, s') => (Raise e, s')
               end.
Proof. reflexivity. Qed.

Ltac munfold :=
  unfold mbind, M_bind, mret, M_ret, try_except, raise, get_state, modify,
    lift, call, print, print_err in *.

(** ** The summarizer *)

Lemma quiet_refl s : quiet s s.
Proof. done. Qed.

Lemma quiet_trans s1 s2 s3 : quiet s1 s2 → quiet s2 s3 → quiet s1 s3.
Proof. unfold quiet. intros (?&?&?) (?&?&?). split_and!; congruence. Qed.

Lemma summarize_unavailable `{World} title description source s :
  unavailable = true →
  summarize_with_claude title description source s = (Ok None, s).
Proof. unfold unavailable, summarize_with_claude. by intros ->. Qed.

Lemma summarize_failure `{World} title description source s e :
  unavailable = false →
  messages_create (ticks s)
    {| api_key := default "" ANTHROPIC_API_KEY;
       model := "claude-sonnet-4-5-20250514"; max_tokens := 200;
       message := prompt title description source |} = inl e →
  summarize_with_claude title description source s
  = (Ok None,
     {| existing_urls := existing_urls s; ticks := S (ticks s);
        stdout := stdout s;
        stderr := stderr s ++ ["  Claude API error: " +:+ exc_str e];
        content_dir := content_dir s |}).
Proof.
  unfold unavailable, summarize_with_claude. intros -> He.
  munfold. by rewrite He.
Qed.

Lemma summarize_returns `{World} title description source s :
  ∃ r s', summarize_with_claude title description source s = (Ok r, s')
          ∧ quiet s s'.
Proof.
  unfold summarize_with_claude.
  destruct (negb (truthy ANTHROPIC_API_KEY) || negb HAS_ANTHROPIC).
  { by exists None, s. }
  munfold. destruct (messages_create _ _) as [e|[|text rest]]; simpl;
    eexists _, _; (split; [reflexivity|done]).
Qed.

(** ** The loop of fetch_feed *)

Lemma entry_date_returns `{World} entry cutoff_date s :
  ∃ r s', entry_date entry cutoff_date s = (Ok r, s') ∧ quiet s s'.
Proof.
  unfold entry_date, datetime_now.
  destruct (truthy _).
  - munfold. destruct (dateparser_parse _ _) as [e|d]; simpl.
    { eexists _, _; (split; [reflexivity|done]). }
    destruct (Datetime.lt _ cutoff_date) as [e|[]]; simpl;
      eexists _, _; (split; [reflexivity|done]).
  - munfold. simpl. eexists _, _; (split; [reflexivity|done]).
Qed.

(** The body of the loop, case by case: the entry is skipped for its
    link, or for its date, or it makes an article and its link joins the
    set. *)
Lemma fetch_entry_cases `{World} name category cutoff_date entry s :
  (fetch_entry name category cutoff_date entry s = (Ok None, s)
   ∧ (entry_link entry = "" ∨ entry_link entry ∈ existing_urls s))
  ∨ (entry_link entry ≠ "" ∧ (entry_link entry ∉ existing_urls s)
     ∧ ((∃ s1, entry_date entry cutoff_date s = (Ok None, s1)
               ∧ fetch_entry name category cutoff_date entry s = (Ok None, s1)
               ∧ quiet s s1)
        ∨ (∃ d s1 sm s2,
             entry_date entry cutoff_date s = (Ok (Some d), s1)
             ∧ summarize_with_claude (entry_title entry) (entry_description entry)
                 name s1 = (Ok sm, s2)
             ∧ quiet s s2
             ∧ fetch_entry name category cutoff_date entry s
               = (Ok (Some (entry_article name category entry d sm)),
                  set_existing_urls (λ urls, {[entry_link entry]} ∪ urls) s2)))).
Proof.
  unfold fetch_entry. fold (entry_link entry). rewrite bind_unfold. simpl.
  destruct (String.eqb_spec (entry_link entry) "") as [He|Hne]; simpl.
  { left. split; [done|by left]. }
  destruct (decide (entry_link entry ∈ existing_urls s)) as [Hin|Hnin].
  { rewrite bool_decide_eq_true_2 by done. left. split; [done|by right]. }
  rewrite bool_decide_eq_false_2 by done. right. split_and!; [done..|].
  rewrite bind_unfold.
  destruct (entry_date_returns entry cutoff_date s) as ([d|] & s1 & Hd & Hq1);
    rewrite Hd; [right|left; by exists s1].
  fold (entry_title entry) (entry_description entry).
  rewrite bind_unfold.
  destruct (summarize_returns (entry_title entry) (entry_description entry) name s1)
    as (sm & s2 & Hs & Hq2).
  rewrite Hs. exists d, s1, sm, s2. split_and!; [done|done|by eapply quiet_trans|done].
Qed.

(** What the loop returns: the articles it had, then one article for
    some of the entries, with links that are not empty, were not in the
    set and differ from one another; the set grows by those links. *)
Lemma fetch_entries_spec `{World} name category cutoff_date entries articles s :
  ∃ new s',
    fetch_entries name category cutoff_date entries articles s
    = (Ok (articles ++ new), s')
    ∧ Forall (λ a, ∃ entry d sm, entry ∈ entries
                   ∧ a = entry_article name category entry d sm
                   ∧ url a ≠ "" ∧ url a ∉ existing_urls s) new
    ∧ NoDup (url <$> new)
    ∧ existing_urls s' = list_to_set (url <$> new) ∪ existing_urls s
    ∧ content_dir s' = content_dir s.
Proof.
  revert articles s. induction entries as [|entry rest IH]; intros articles s.
  { exists [], s. rewrite app_nil_r. split_and!; try done; [constructor|set_solver]. }
  simpl. rewrite bind_unfold.
  destruct (fetch_entry_cases name category cutoff_date entry s)
    as [[-> _]|(Hne & Hnin & [(s1 & _ & -> & Hq)|(d & s1 & sm & s2 & _ & _ & Hq & ->)])].
  - destruct (IH articles s) as (new & s' & -> & Hall & Hnd & Hurls & Hdir).
    exists new, s'. split_and!; try done.
    eapply Forall_impl; [exact Hall|]. intros a (e & d & sm & ? & ?).
    exists e, d, sm. split; [by right|done].
  - destruct Hq as (Hq1 & Hq2 & _).
    destruct (IH articles s1) as (new & s' & -> & Hall & Hnd & Hurls & Hdir).
    exists new, s'. split_and!; try done; [|congruence..].
    eapply Forall_impl; [exact Hall|]. intros a (e & d & sm & ? & ? & ? & ?).
    exists e, d, sm. split_and!; [by right|done|done|congruence].
  - destruct Hq as (Hq1 & Hq2 & _).
    set (a := entry_article name category entry d sm).
    set (s3 := set_existing_urls _ s2).
    assert (existing_urls s3 = {[entry_link entry]} ∪ existing_urls s) as Hs3.
    { subst s3. simpl. by rewrite Hq1. }
    destruct (IH (articles ++ [a]) s3) as (new & s' & -> & Hall & Hnd & Hurls & Hdir).
    exists (a :: new), s'. rewrite <-(assoc_L (++)). simpl. split_and!.
    + done.
    + constructor.
      * exists entry, d, sm. split_and!; [by left|done..].
      * eapply Forall_impl; [exact Hall|]. intros b (e & d' & sm' & ? & ? & ? & Hb).
        exists e, d', sm'. split_and!; [by right|done|done|].
        rewrite Hs3 in Hb. set_solver.
    + constructor; [|done]. intros Hin.
      apply list_elem_of_fmap in Hin as (b & Hb & Hbin).
      rewrite Forall_forall in Hall.
      destruct (Hall b Hbin) as (_ & _ & _ & _ & _ & _ & Hbn).
      rewrite Hs3 in Hbn. apply Hbn. rewrite <-Hb. simpl. set_solver.
    + rewrite Hurls, Hs3. simpl. set_solver.
    + rewrite Hdir. subst s3. simpl. done.
Qed.

(** ** fetch_feed *)

(** [fetch_feed] on a config that has its name and its url, by what the
    feed parser answers. *)
Lemma fetch_feed_unfold `{World} feed_config cutoff_date s name u :
  feed_config !! "name" = Some name → feed_config !! "url" = Some u →
  fetch_feed feed_config cutoff_date s =
  let s0 := tick (print ("Fetching: " +:+ name) s).2 in
  match feedparser_parse (ticks s) u with
  | inl e =>
      (Ok [], (print_err ("  Error parsing " +:+ name +:+ ": " +:+ exc_str e) s0).2)
  | inr parsed =>
      if bozo parsed && bool_decide (entries parsed = []) then
        (Ok [], (print_err ("  Warning: feed error for " +:+ name +:+ ": "
                            +:+ bozo_exception parsed) s0).2)
      else
        match fetch_entries name (default "general" (feed_config !! "category"))
                cutoff_date (entries parsed) [] s0 with
        | (Ok articles, s1) =>
            (Ok articles,
             (print ("  Found " +:+ pretty (length articles) +:+ " new articles") s1).2)
        | (Raise e, s1) => (Raise e, s1)
        end
  end.
Proof.
  intros Hname Hurl. unfold fetch_feed, getitem. rewrite Hname, Hurl.
  munfold. simpl. destruct (feedparser_parse (ticks s) u) as [e|parsed]; simpl; [done|].
  destruct (bozo parsed && bool_decide (entries parsed = [])); simpl; [done|].
  by destruct (fetch_entries _ _ _ _ _ _) as [[articles|e] s1].
Qed.

(** Where the articles of a feed come from. *)
Lemma fetch_feed_inv `{World} feed_config cutoff_date s articles s' :
  fetch_feed feed_config cutoff_date s = (Ok articles, s') →
  ∃ name,
    feed_config !! "name" = Some name
    ∧ Forall (λ a, ∃ entry d sm,
                a = entry_article name (default "general" (feed_config !! "category"))
                      entry d sm
                ∧ url a ≠ "" ∧ url a ∉ existing_urls s) articles
    ∧ NoDup (url <$> articles)
    ∧ existing_urls s' = list_to_set (url <$> articles) ∪ existing_urls s
    ∧ content_dir s' = content_dir s.
Proof.
  destruct (feed_config !! "name") as [name|] eqn:Hname;
    [|unfold fetch_feed, getitem; rewrite Hname; by munfold].
  destruct (feed_config !! "url") as [u|] eqn:Hurl;
    [|unfold fetch_feed, getitem; rewrite Hname, Hurl; by munfold].
  rewrite (fetch_feed_unfold _ _ _ name u) by done. simpl.
  assert (∀ line : string, articles = [] →
          existing_urls s' = existing_urls s → content_dir s' = content_dir s →
          ∃ name0, Some name = Some name0 ∧
            Forall (λ a, ∃ entry d sm,
               a = entry_article name0 (default "general" (feed_config !! "category"))
                     entry d sm ∧ url a ≠ "" ∧ url a ∉ existing_urls s) articles
            ∧ NoDup (url <$> articles)
            ∧ existing_urls s' = list_to_set (url <$> articles) ∪ existing_urls s
            ∧ content_dir s' = content_dir s) as Hempty.
  { intros _ -> Hu Hd. exists name. split_and!; try done; [constructor|set_solver]. }
  destruct (feedparser_parse (ticks s) u) as [e|parsed].
  { intros [= <- <-]. by apply Hempty. }
  destruct (bozo parsed && bool_decide (entries parsed = [])).
  { intros [= <- <-]. by apply Hempty. }
  match goal with |- context [fetch_entries ?n ?c ?d ?es ?acc ?s0] =>
    destruct (fetch_entries_spec n c d es acc s0) as (new & s1 & -> & Hall & Hnd & Hurls & Hdir)
  end.
  simpl. intros [= <- <-]. exists name. simpl in *. split_and!; try done.
  eapply Forall_impl; [exact Hall|]. intros a (entry & d & sm & _ & ? & ? & ?).
  by exists entry, d, sm.
Qed.

(** C1. An entry whose link is empty or in [existing_urls] makes no
    article and leaves the state as it is; an entry that makes an article
    has a link that is not empty and was not in the set, and the link is in
    the set when the next entry is reached; so the articles of a feed have
    links that are not empty, were not in the set, and differ from one
    another, and the set grows by exactly those links; and a feed whose
    only entry has a link of [existing_urls] gives no article. *)
Theorem fetch_feed_dedupes `{World} :
  (∀ name category cutoff_date entry s,
     entry_link entry = "" ∨ entry_link entry ∈ existing_urls s →
     fetch_entry name category cutoff_date entry s = (Ok None, s))
  ∧ (∀ name category cutoff_date entry s a s',
       fetch_entry name category cutoff_date entry s = (Ok (Some a), s') →
       url a = entry_link entry ∧ url a ≠ "" ∧ (url a ∉ existing_urls s)
       ∧ existing_urls s' = {[url a]} ∪ existing_urls s)
  ∧ (∀ feed_config cutoff_date s articles s',
       fetch_feed feed_config cutoff_date s = (Ok articles, s') →
       Forall (λ a, url a ≠ "" ∧ url a ∉ existing_urls s) articles
       ∧ NoDup (url <$> articles)
       ∧ existing_urls s' = list_to_set (url <$> articles) ∪ existing_urls s)
  ∧ (∀ feed_config cutoff_date s name u parsed entry,
       feed_config !! "name" = Some name → feed_config !! "url" = Some u →
       feedparser_parse (ticks s) u = inr parsed →
       entries parsed = [entry] →
       entry_link entry ∈ existing_urls s →
       ∃ s', fetch_feed feed_config cutoff_date s = (Ok [], s')
             ∧ existing_urls s' = existing_urls s).
Proof.
  split_and!.
  - intros name category cutoff_date entry s Hskip.
    destruct (fetch_entry_cases name category cutoff_date entry s)
      as [[-> _]|(Hne & Hnin & _)]; [done|]. by destruct Hskip.
  - intros name category cutoff_date entry s a s' Hfetch.
    destruct (fetch_entry_cases name category cutoff_date entry s)
      as [[Heq _]|(Hne & Hnin & [(s1 & _ & Heq & _)|(d & s1 & sm & s2 & _ & _ & Hq & Heq)])];
      rewrite Heq in Hfetch; try done.
    injection Hfetch as <- <-. simpl. destruct Hq as (-> & _). done.
  - intros feed_config cutoff_date s articles s' Hfetch.
    destruct (fetch_feed_inv _ _ _ _ _ Hfetch) as (name & _ & Hall & Hnd & Hurls & _).
    split_and!; [|done..].
    eapply Forall_impl; [exact Hall|]. by intros a (_ & _ & _ & _ & ? & ?).
  - intros feed_config cutoff_date s name u parsed entry Hname Hurl Hparse Hentries Hin.
    rewrite (fetch_feed_unfold _ _ _ name u) by done. simpl.
    rewrite Hparse, Hentries. rewrite bool_decide_eq_false_2, andb_false_r by done.
    cbn [fetch_entries]. rewrite bind_unfold.
    match goal with |- context [fetch_entry ?n ?c ?d ?e ?s0] =>
      destruct (fetch_entry_cases n c d e s0) as [[-> _]|(_ & Hnin & _)];
        [|by destruct Hnin]
    end.
    simpl. by eexists.
Qed.

(** The feed of the test double has one entry, whose link is in the set
    at the start: no article comes out. *)
Lemma fetch_feed_dedupes_witness :
  ∃ s', @fetch_feed (Demo.world None [Demo.entry1]) Demo.feed Demo.cutoff
          (Demo.start ["https://x.com/1"]) = (Ok [], s')
        ∧ existing_urls s' = existing_urls (Demo.start ["https://x.com/1"]).
Proof.
  refine (proj2 (proj2 (proj2 (@fetch_feed_dedupes (Demo.world None [Demo.entry1]))))
            Demo.feed Demo.cutoff (Demo.start ["https://x.com/1"])
            "X Blog" "https://x.com/feed"
            {| bozo := false; bozo_exception := ""; entries := [Demo.entry1] |}
            Demo.entry1 _ _ _ _ _); reflexivity.
Defined.

(** ** The slug *)

Lemma pretty_N_go_all (p : ascii → bool) x s :
  (∀ d, p (pretty_N_char d) = true) → Py.all p s = true →
  Py.all p (pretty_N_go x s) = true.
Proof.
  intros Hp. revert s. induction (N.lt_wf_0 x) as [x _ IH]; intros s Hs.
  destruct (decide (x = 0)%N) as [->|Hx]; [by rewrite pretty_N_go_0|].
  rewrite pretty_N_go_step by lia. apply IH.
  - apply N.div_lt; lia.
  - simpl. by rewrite Hp, Hs.
Qed.

Lemma pretty_Z_all (p : ascii → bool) (x : Z) :
  (∀ d, p (pretty_N_char d) = true) → p "-"%char = true →
  Py.all p (pretty x) = true.
Proof.
  intros Hd Hm.
  assert (p "0"%char = true) as H0 by apply (Hd 0%N).
  assert (∀ n : N, Py.all p (pretty n) = true) as HN.
  { intros n. unfold pretty, pretty_N. case_decide.
    - simpl. by rewrite H0.
    - by apply pretty_N_go_all. }
  destruct x as [|q|q]; unfold pretty, pretty_Z.
  - simpl. by rewrite H0.
  - apply HN.
  - rewrite all_app. simpl. rewrite Hm. apply HN.
Qed.

Lemma pad2_all (p : ascii → bool) (x : Z) :
  (∀ d, p (pretty_N_char d) = true) → p "-"%char = true →
  Py.all p (Datetime.pad2 x) = true.
Proof.
  intros Hd Hm. unfold Datetime.pad2. destruct (x <? 10)%Z.
  - rewrite all_app. simpl. rewrite (Hd 0%N : p "0"%char = true).
    by apply pretty_Z_all.
  - by apply pretty_Z_all.
Qed.

Lemma all_not_contains c s :
  Py.all (λ a, negb (a =? c)%char) s = true → Py.contains c s = false.
Proof.
  induction s as [|a s IH]; [done|]. simpl.
  intros [Ha Hs]%andb_true_iff. apply negb_true_iff in Ha. by rewrite Ha, IH.
Qed.

Lemma strftime_Ymd_no_T d : Py.contains "T" (Datetime.strftime_Ymd d) = false.
Proof.
  apply all_not_contains. unfold Datetime.strftime_Ymd.
  assert (∀ n, negb (pretty_N_char n =? "T")%char = true) as Hd.
  { intros n. unfold pretty_N_char. by repeat case_match. }
  rewrite !all_app. simpl.
  by rewrite pretty_Z_all, !pad2_all.
Qed.

(** Two texts that agree, each cut at its first [c], agree before it. *)
Lemma split_unique c p q r r' :
  Py.contains c p = false → Py.contains c q = false →
  p +:+ String c r = q +:+ String c r' → p = q.
Proof.
  revert q. induction p as [|a p IH]; intros [|b q]; simpl; try done.
  - rewrite str_app_cons. intros _ [Hb _]%orb_false_iff [= <-].
    by rewrite Ascii.eqb_refl in Hb.
  - rewrite str_app_cons. intros [Ha _]%orb_false_iff _ [= ->].
    by rewrite Ascii.eqb_refl in Ha.
  - rewrite !str_app_cons. intros [_ Hp]%orb_false_iff [_ Hq]%orb_false_iff [= -> Heq].
    f_equal. by apply IH.
Qed.

(** The day of the slug can be read off the [date] of the article. *)
Lemma strftime_Ymd_of_iso d1 d2 :
  Datetime.strftime_YmdTHMSZ d1 = Datetime.strftime_YmdTHMSZ d2 →
  Datetime.strftime_Ymd d1 = Datetime.strftime_Ymd d2.
Proof.
  unfold Datetime.strftime_YmdTHMSZ. intros Heq.
  eapply (split_unique "T"); [apply strftime_Ymd_no_T..|exact Heq].
Qed.

Lemma hex_length bs : String.length (Hashlib.hex bs) = 2 * length bs.
Proof. induction bs as [|b bs IH]; simpl; lia. Qed.

Lemma le_bytes_length n x : length (Hashlib.le_bytes n x) = n.
Proof. unfold Hashlib.le_bytes. by rewrite length_map, length_seq. Qed.

Lemma le_bytes_range n x : Forall (λ b, 0 ≤ b < 256)%Z (Hashlib.le_bytes n x).
Proof.
  unfold Hashlib.le_bytes. apply Forall_map, Forall_forall. intros i _. simpl.
  change 255%Z with (Z.ones 8). rewrite Z.land_ones by lia.
  apply Z.mod_pos_bound. lia.
Qed.

Lemma digest_length msg : length (Hashlib.digest msg) = 16.
Proof.
  unfold Hashlib.digest. destruct (Hashlib.blocks _ _ _) as [[[a b] c] d].
  by rewrite !length_app, !le_bytes_length.
Qed.

Lemma digest_range msg : Forall (λ b, 0 ≤ b < 256)%Z (Hashlib.digest msg).
Proof.
  unfold Hashlib.digest. destruct (Hashlib.blocks _ _ _) as [[[a b] c] d].
  rewrite !Forall_app. split_and!; apply le_bytes_range.
Qed.

Lemma hex_digit_is_hex x : (0 ≤ x < 16)%Z → is_hex (Hashlib.hex_digit x) = true.
Proof.
  intros Hx.
  assert (x ∈ [0; 1; 2; 3; 4; 5; 6; 7; 8; 9; 10; 11; 12; 13; 14; 15]%Z) as Hin.
  { rewrite !elem_of_cons. lia. }
  rewrite !elem_of_cons in Hin.
  repeat (destruct Hin as [->|Hin]; [done|]). by apply elem_of_nil in Hin.
Qed.

Lemma hex_is_hex bs :
  Forall (λ b, 0 ≤ b < 256)%Z bs → Py.all is_hex (Hashlib.hex bs) = true.
Proof.
  induction 1 as [|b bs Hb _ IH]; [done|]. simpl.
  rewrite !hex_digit_is_hex, IH; [done|..].
  - split; [apply Z.mod_pos_bound; lia|]. apply Z.mod_pos_bound. lia.
  - split; [apply Z.div_pos; lia|]. apply Z.div_lt_upper_bound; lia.
Qed.

Lemma article_id_shape u :
  String.length (article_id u) = 12 ∧ Py.all is_hex (article_id u) = true.
Proof.
  unfold article_id, Hashlib.md5_hexdigest. split.
  - rewrite take_length, hex_length, digest_length. done.
  - destruct (take_prefix 12 (Hashlib.hex (Hashlib.digest (Hashlib.encode u))))
      as [r Hr].
    eapply all_prefix. rewrite <-Hr. apply hex_is_hex, digest_range.
Qed.

(** C2. Every article that [fetch_feed] returns has a publish date, the
    one its [date] field prints, such that its slug is that date as
    year-month-day, a hyphen, the slugified title, a hyphen, and the first
    12 characters of the MD5 digest of the url in hexadecimal; those are
    12 characters among 0-9 and a-f; and an article of any run that has the
    same title, date and url has the same slug. *)
Theorem fetched_slug `{World} feed_config cutoff_date s articles s' a :
  fetch_feed feed_config cutoff_date s = (Ok articles, s') →
  a ∈ articles →
  (∃ pub_date,
     date a = Datetime.strftime_YmdTHMSZ pub_date
     ∧ slug a = Datetime.strftime_Ymd pub_date +:+ "-" +:+ slugify (title a) +:+ "-"
                +:+ Py.take 12 (Hashlib.md5_hexdigest (Hashlib.encode (url a)))
     ∧ slug a = slug_of (title a) pub_date (url a))
  ∧ String.length (Py.take 12 (Hashlib.md5_hexdigest (Hashlib.encode (url a)))) = 12
  ∧ Py.all is_hex (Py.take 12 (Hashlib.md5_hexdigest (Hashlib.encode (url a)))) = true
  ∧ (∀ feed_config2 cutoff_date2 s2 articles2 s2' b,
       fetch_feed feed_config2 cutoff_date2 s2 = (Ok articles2, s2') →
       b ∈ articles2 →
       title b = title a → date b = date a → url b = url a → slug b = slug a).
Proof.
  intros Hfetch Ha.
  assert (∀ cfg c st arts st' x,
            fetch_feed cfg c st = (Ok arts, st') → x ∈ arts →
            ∃ pub_date, date x = Datetime.strftime_YmdTHMSZ pub_date
                        ∧ slug x = slug_of (title x) pub_date (url x)) as Hslug.
  { intros cfg c st arts st' x Hf Hx.
    destruct (fetch_feed_inv _ _ _ _ _ Hf) as (name & _ & Hall & _).
    rewrite Forall_forall in Hall.
    destruct (Hall x Hx) as (entry & d & sm & -> & _). by exists d. }
  split_and!.
  - destruct (Hslug _ _ _ _ _ _ Hfetch Ha) as (d & Hd & Hs). by exists d.
  - apply (article_id_shape (url a)).
  - apply (article_id_shape (url a)).
  - intros cfg2 c2 s2 arts2 s2' b Hf2 Hb Ht Hdate Hu.
    destruct (Hslug _ _ _ _ _ _ Hfetch Ha) as (d1 & Hd1 & ->).
    destruct (Hslug _ _ _ _ _ _ Hf2 Hb) as (d2 & Hd2 & ->).
    unfold slug_of. rewrite Ht, Hu. f_equal.
    apply strftime_Ymd_of_iso. congruence.
Qed.

(** The feed of the test double, fetched with no summarizer: the slug of
    its article is the day, the title and twelve characters of the
    digest. *)
Lemma fetched_slug_witness :
  let a := {| title := "GPT-5 Launches"; url := "https://x.com/1";
              source := "X Blog"; category := "labs";
              date := "2024-01-15T10:30:00Z";
              summary := "The new model is out.";
              slug := "2024-01-15-gpt-5-launches-a5a1a0c4812e" |} in
  ∃ pub_date,
    date a = Datetime.strftime_YmdTHMSZ pub_date
    ∧ slug a = Datetime.strftime_Ymd pub_date +:+ "-"
               +:+ @slugify Demo.html (title a) +:+ "-"
               +:+ Py.take 12 (Hashlib.md5_hexdigest (Hashlib.encode (url a)))
    ∧ slug a = @slug_of Demo.html (title a) pub_date (url a).
Proof.
  intros a.
  refine (proj1 (@fetched_slug (Demo.world None [Demo.entry1]) Demo.feed Demo.cutoff
                   (Demo.start []) [a] _ a _ _)).
  - vm_compute. reflexivity.
  - by left.
Defined.

(** ** The date of an entry *)


Lemma resolved_date_aware `{World} entry t :
  ∃ o, Datetime.tzinfo (resolved_date entry t) = Some o.
Proof.
  unfold resolved_date.
  destruct (if truthy (entry !! "published") then _ else _) as [text|]; [|by exists 0%Z].
  destruct (String.eqb text ""); [by exists 0%Z|].
  destruct (dateparser_parse t text) as [e|d]; [by exists 0%Z|].
  destruct (Datetime.tzinfo d) as [o|] eqn:Hd; [by exists o|by exists 0%Z].
Qed.




(** ** The fallback of the summary *)

(** C7. [summarize_with_claude] always returns and never raises. It
    returns [None], with the state as it was, when no key is configured
    or the library is missing; when the call to the service raises, or
    answers with no content, it writes the error to the error stream and
    returns [None]. And whenever the summarizer is not configured or every
    call to the service raises, the summary of an article is the
    truncated description of its entry; in general the summary is the
    truncated description whenever the call made for the entry returned
    [None] or an empty text, and the text that call returned otherwise. *)
Theorem summarize_never_raises `{World} (title description source : string) (s : run) :
  let req := {| api_key := default "" ANTHROPIC_API_KEY;
                model := "claude-sonnet-4-5-20250514"; max_tokens := 200;
                message := prompt title description source |} in
  let failed (m : string) :=
    {| existing_urls := existing_urls s; ticks := S (ticks s);
       stdout := stdout s;
       stderr := stderr s ++ ["  Claude API error: " +:+ m];
       content_dir := content_dir s |} in
  (∃ r s', summarize_with_claude title description source s = (Ok r, s'))
  ∧ (unavailable = true →
     summarize_with_claude title description source s = (Ok None, s))
  ∧ (∀ e, unavailable = false → messages_create (ticks s) req = inl e →
     summarize_with_claude title description source s
     = (Ok None, failed (exc_str e)))
  ∧ (unavailable = false → messages_create (ticks s) req = inr [] →
     summarize_with_claude title description source s
     = (Ok None, failed "list index out of range"))
  ∧ (∀ name category cutoff_date entry s0 a s',
       unavailable = true ∨ (∀ t r, ∃ e, messages_create t r = inl e) →
       fetch_entry name category cutoff_date entry s0 = (Ok (Some a), s') →
       summary a = entry_description entry)
  ∧ (∀ name category cutoff_date entry s0 a s',
       fetch_entry name category cutoff_date entry s0 = (Ok (Some a), s') →
       ∃ d s1 sm s2,
         entry_date entry cutoff_date s0 = (Ok (Some d), s1)
         ∧ summarize_with_claude (entry_title entry) (entry_description entry)
             name s1 = (Ok sm, s2)
         ∧ (truthy sm = false → summary a = entry_description entry)
         ∧ (truthy sm = true → Some (summary a) = sm)).
Proof.
  intros req failed. split_and!; cycle 5.
  { intros name category cutoff_date entry s0 a s' Hfetch.
    destruct (fetch_entry_cases name category cutoff_date entry s0)
      as [[Heq _]|(_ & _ & [(s1 & _ & Heq & _)|(d & s1 & sm & s2 & Hd & Hsum & _ & Heq)])];
      rewrite Heq in Hfetch; try done.
    injection Hfetch as <- <-. exists d, s1, sm, s2. simpl.
    split_and!; [done|done|by intros ->|].
    intros Ht. rewrite Ht. by destruct sm. }
  - destruct (summarize_returns title description source s) as (r & s' & Hr & _).
    by exists r, s'.
  - apply summarize_unavailable.
  - intros e Hav He. by apply summarize_failure.
  - intros Hav He. unfold unavailable, summarize_with_claude in *. rewrite Hav.
    munfold. fold req. by rewrite He.
  - intros name category cutoff_date entry s0 a s' Hfail Hfetch.
    destruct (fetch_entry_cases name category cutoff_date entry s0)
      as [[Heq _]|(_ & _ & [(s1 & _ & Heq & _)|(d & s1 & sm & s2 & _ & Hsum & _ & Heq)])];
      rewrite Heq in Hfetch; try done.
    injection Hfetch as <- <-. simpl.
    assert (sm = None) as ->; [|done].
    destruct unavailable eqn:Hav.
    + rewrite summarize_unavailable in Hsum by done. congruence.
    + destruct Hfail as [?|Hfail]; [done|].
      match type of Hsum with summarize_with_claude ?t ?d ?n _ = _ =>
        destruct (Hfail (ticks s1)
                    {| api_key := default "" ANTHROPIC_API_KEY;
                       model := "claude-sonnet-4-5-20250514"; max_tokens := 200;
                       message := prompt t d n |}) as [e He];
        rewrite (summarize_failure t d n s1 e Hav He) in Hsum
      end.
      congruence.
Qed.

(** In the world of the test double a key is configured and every call
    to the service fails: the summarizer returns [None] after writing to
    the error stream, and the summary of the article is the stripped
    description. *)
Lemma summarize_never_raises_witness :
  @summarize_with_claude (Demo.world (Some "key") []) "T" "D" "S" (Demo.start [])
  = (Ok None,
     {| existing_urls := ∅; ticks := 1; stdout := [];
        stderr := ["  Claude API error: Connection error."]; content_dir := ∅ |})
  ∧ ∃ a s',
      @fetch_entry (Demo.world (Some "key") []) "X Blog" "labs" Demo.cutoff
        Demo.entry1 (Demo.start []) = (Ok (Some a), s')
      ∧ summary a = "The new model is out.".
Proof.
  pose proof (@summarize_never_raises (Demo.world (Some "key") []) "T" "D" "S"
                (Demo.start [])) as (_ & _ & Hfail & _ & Hsum & _).
  split.
  - exact (Hfail (Exc "APIConnectionError" "Connection error.") eq_refl eq_refl).
  - eexists _, _. split; [vm_compute; reflexivity|].
    refine (Hsum "X Blog" "labs" Demo.cutoff Demo.entry1 (Demo.start []) _ _ _ _).
    + right. intros t r. by eexists.
    + vm_compute. reflexivity.
Defined.

(** ** A feed that fails *)

Lemma fetch_feed_returns `{World} feed_config cutoff_date s name u :
  feed_config !! "name" = Some name → feed_config !! "url" = Some u →
  ∃ articles s', fetch_feed feed_config cutoff_date s = (Ok articles, s').
Proof.
  intros Hname Hurl. rewrite (fetch_feed_unfold _ _ _ name u) by done. simpl.
  destruct (feedparser_parse (ticks s) u) as [e|parsed]; [by eexists _, _|].
  destruct (bozo parsed && bool_decide (entries parsed = [])); [by eexists _, _|].
  match goal with |- context [fetch_entries ?n ?c ?d ?es ?acc ?s0] =>
    destruct (fetch_entries_spec n c d es acc s0) as (new & s1 & -> & _)
  end.
  by eexists _, _.
Qed.

(** C8. Take a feed config with its name and its url. [fetch_feed] on it
    never raises. When the feed parser raises, and when it returns a
    feed marked as broken with no entry, [fetch_feed] writes one line to
    the error stream and returns the empty list, with [existing_urls] and
    the content directory as they were; and the loop of [main] over the
    feeds goes on with the feeds that remain, from that state and with
    the count it had. *)
Theorem fetch_feed_failure `{World} feed_config cutoff_date s name u :
  feed_config !! "name" = Some name →
  feed_config !! "url" = Some u →
  let failed (line : string) :=
    {| existing_urls := existing_urls s; ticks := S (ticks s);
       stdout := stdout s ++ ["Fetching: " +:+ name];
       stderr := stderr s ++ [line];
       content_dir := content_dir s |} in
  (∃ articles s', fetch_feed feed_config cutoff_date s = (Ok articles, s'))
  ∧ (∀ e, feedparser_parse (ticks s) u = inl e →
       let s' := failed ("  Error parsing " +:+ name +:+ ": " +:+ exc_str e) in
       fetch_feed feed_config cutoff_date s = (Ok [], s')
       ∧ ∀ rest total_new,
           fetch_feeds (feed_config :: rest) cutoff_date total_new s
           = fetch_feeds rest cutoff_date total_new s')
  ∧ (∀ parsed, feedparser_parse (ticks s) u = inr parsed →
       bozo parsed = true → entries parsed = [] →
       let s' := failed ("  Warning: feed error for " +:+ name +:+ ": "
                         +:+ bozo_exception parsed) in
       fetch_feed feed_config cutoff_date s = (Ok [], s')
       ∧ ∀ rest total_new,
           fetch_feeds (feed_config :: rest) cutoff_date total_new s
           = fetch_feeds rest cutoff_date total_new s').
Proof.
  intros Hname Hurl failed. split_and!.
  - by eapply fetch_feed_returns.
  - intros e He s'.
    assert (fetch_feed feed_config cutoff_date s = (Ok [], s')) as Hfeed.
    { rewrite (fetch_feed_unfold _ _ _ name u) by done. simpl. by rewrite He. }
    split; [done|]. intros rest total_new. simpl.
    rewrite bind_unfold, Hfeed. simpl. by rewrite bind_unfold.
  - intros parsed Hp Hbozo Hentries s'.
    assert (fetch_feed feed_config cutoff_date s = (Ok [], s')) as Hfeed.
    { rewrite (fetch_feed_unfold _ _ _ name u) by done. simpl.
      by rewrite Hp, Hbozo, Hentries. }
    split; [done|]. intros rest total_new. simpl.
    rewrite bind_unfold, Hfeed. simpl. by rewrite bind_unfold.
Qed.

(** The first feed of the test double cannot be reached: it gives no
    article, and the run goes on to the second feed, whose two articles
    are written. *)
Lemma fetch_feed_failure_witness :
  let W := Demo.world None [Demo.entry1; Demo.entry_undated] in
  let s' := {| existing_urls := ∅; ticks := 1;
               stdout := ["Fetching: Down"];
               stderr := ["  Error parsing Down: connection refused"];
               content_dir := ∅ |} in
  @fetch_feed W Demo.broken_feed Demo.cutoff (Demo.start []) = (Ok [], s')
  ∧ @fetch_feeds W [Demo.broken_feed; Demo.feed] Demo.cutoff 0 (Demo.start [])
    = @fetch_feeds W [Demo.feed] Demo.cutoff 0 s'
  ∧ (@fetch_feeds W [Demo.broken_feed; Demo.feed] Demo.cutoff 0 (Demo.start [])).1
    = Ok 2.
Proof.
  intros W s'.
  pose proof (@fetch_feed_failure W Demo.broken_feed Demo.cutoff (Demo.start [])
                "Down" "https://down.example/feed" eq_refl eq_refl)
    as (_ & Hraise & _).
  destruct (Hraise (Exc "URLError" "connection refused") eq_refl) as [Hfeed Hrest].
  split_and!; [exact Hfeed|exact (Hrest [Demo.feed] 0)|].
  vm_compute. reflexivity.
Defined.

(** ** The order of the articles *)

Lemma ltb_false_leb x y : String.ltb x y = false → String.leb y x = true.
Proof.
  unfold String.ltb, String.leb. rewrite (String.compare_antisym y x).
  by destruct (String.compare x y).
Qed.

Lemma ltb_true_leb x y : String.ltb x y = true → String.leb x y = true.
Proof. unfold String.ltb, String.leb. by destruct (String.compare x y). Qed.

Lemma ltb_irrefl x : String.ltb x x = false.
Proof.
  unfold String.ltb. assert (String.compare x x = Eq) as ->; [|done].
  induction x as [|c x IH]; simpl; [done|].
  unfold Ascii.compare. by rewrite N.compare_refl.
Qed.

Lemma leb_trans x y z :
  String.leb x y = true → String.leb y z = true → String.leb x z = true.
Proof.
  intros Hxy Hyz. apply Is_true_true.
  change (String.le x z). trans y; by apply Is_true_true.
Qed.

Lemma leb_empty x : String.leb "" x = true.
Proof. by destruct x. Qed.

Lemma leb_empty_inv x : String.leb x "" = true → x = "".
Proof. by destruct x. Qed.

Lemma insert_reverse_perm {A} (key : A → string) x l :
  insert_reverse key x l ≡ₚ x :: l.
Proof.
  induction l as [|y l IH]; simpl; [done|].
  destruct (String.ltb (key x) (key y)); [|done].
  rewrite IH. apply Permutation_swap.
Qed.

Lemma sort_reverse_perm {A} (key : A → string) l : sort_reverse key l ≡ₚ l.
Proof.
  induction l as [|x l IH]; simpl; [done|].
  rewrite insert_reverse_perm. by rewrite IH.
Qed.

Lemma insert_reverse_sorted {A} (key : A → string) x l :
  StronglySorted (descending key) l →
  StronglySorted (descending key) (insert_reverse key x l).
Proof.
  induction 1 as [|y l Hl IH Hy]; simpl.
  { repeat constructor. }
  destruct (String.ltb (key x) (key y)) eqn:Hxy.
  - constructor; [done|].
    rewrite insert_reverse_perm. constructor; [|done].
    by apply ltb_true_leb.
  - apply ltb_false_leb in Hxy. constructor; [by constructor|].
    constructor; [done|].
    eapply Forall_impl; [exact Hy|]. intros z Hz. unfold descending in *.
    by eapply leb_trans.
Qed.

Lemma sort_reverse_sorted {A} (key : A → string) l :
  StronglySorted (descending key) (sort_reverse key l).
Proof.
  induction l as [|x l IH]; simpl; [constructor|].
  by apply insert_reverse_sorted.
Qed.

(** The sort is stable: the elements of one key stay in their order. *)
Lemma insert_reverse_stable {A} (key : A → string) k x l :
  filter (λ a, key a = k) (insert_reverse key x l)
  = filter (λ a, key a = k) (x :: l).
Proof.
  induction l as [|y l IH]; simpl; [done|].
  destruct (String.ltb (key x) (key y)) eqn:Hxy; [|done].
  rewrite !filter_cons. rewrite filter_cons in IH. rewrite IH.
  destruct (decide (key y = k)) as [Hy|Hy], (decide (key x = k)) as [Hx|Hx]; try done.
  rewrite <-Hx in Hy. rewrite Hy, ltb_irrefl in Hxy. done.
Qed.

Lemma sort_reverse_stable {A} (key : A → string) k l :
  filter (λ a, key a = k) (sort_reverse key l) = filter (λ a, key a = k) l.
Proof.
  induction l as [|x l IH]; simpl; [done|].
  rewrite insert_reverse_stable, !filter_cons, IH. done.
Qed.

(** In a list in descending order nothing but empty keys follows an
    empty key. *)
Lemma sorted_empty_last {A} (key : A → string) l i j a b :
  StronglySorted (descending key) l →
  i < j → l !! i = Some a → l !! j = Some b → key a = "" → key b = "".
Proof.
  intros Hl. revert i j. induction Hl as [|y l Hl IH Hy]; intros i j Hij Hi Hj Ha.
  { done. }
  destruct j as [|j]; [lia|]. destruct i as [|i]; simpl in *.
  - injection Hi as ->. rewrite Forall_forall in Hy.
    assert (b ∈ l) as Hb by (by eapply list_elem_of_lookup_2).
    specialize (Hy b Hb). unfold descending in Hy. rewrite Ha in Hy.
    by apply leb_empty_inv.
  - eapply (IH i j); [lia|done..].
Qed.

(** ** The builder *)

Lemma load_files_spec files articles s :
  ∃ s', load_files files articles s = (Ok (articles ++ loaded_articles files), s')
        ∧ actions s' = actions s.
Proof.
  revert articles s. induction files as [|[name [e|p]] files IH]; intros articles s.
  - exists s. by rewrite app_nil_r.
  - simpl. rewrite bind_unfold. unfold echo at 1. munfold.
    unfold loaded_articles. simpl.
    match goal with |- context [load_files files articles ?s0] =>
      destruct (IH articles s0) as (s' & -> & Hact) end.
    by exists s'.
  - simpl. unfold loaded_articles. simpl.
    destruct (IH (articles ++ [<["body" := content p]> (metadata p)]) s)
      as (s' & -> & Hact).
    exists s'. by rewrite <-(assoc_L (++)).
Qed.

Lemma load_articles_spec `{Site} s :
  ∃ s', load_articles s
        = (Ok (sort_reverse date_key (loaded_articles article_files)), s')
        ∧ actions s' = actions s.
Proof.
  unfold load_articles. rewrite bind_unfold. fold article_files.
  destruct (load_files_spec article_files [] s) as (s' & -> & Hact).
  by exists s'.
Qed.

Lemma build_pages_spec `{Site} render articles s :
  match build_pages render (joinpath OUTPUT_DIR "article") articles s with
  | (Ok _, s') =>
      ∃ pages, actions s' = actions s ++ pages ∧ printed s' = printed s
               ∧ Forall2 (is_page render) articles pages
  | (Raise _, _) => True
  end.
Proof.
  revert s. induction articles as [|article rest IH]; intros s; simpl.
  { exists []. by rewrite app_nil_r. }
  rewrite bind_unfold. unfold lift.
  destruct (render [("article", Dict article)]) as [e|html] eqn:Hr; [done|].
  munfold. unfold act at 1. munfold. simpl.
  match goal with |- context [build_pages render _ rest ?s0] =>
    specialize (IH s0); destruct (build_pages render _ rest s0) as [[[]|e] s']
  end; [|done].
  destruct IH as (pages & Hact & Hpr & Hpages). simpl in *.
  exists (WriteText (joinpath (joinpath OUTPUT_DIR "article") (article_page article)) html
          :: pages).
  split_and!; [by rewrite Hact, <-(assoc_L (++))|done|].
  constructor; [by exists html|done].
Qed.

Lemma fold_left_snoc {A B} (f : A → B) l init :
  fold_left (λ acc a, acc ++ [f a]) l init = init ++ map f l.
Proof.
  revert init. induction l as [|a l IH]; intros init; simpl.
  - by rewrite app_nil_r.
  - by rewrite IH, <-(assoc_L (++)).
Qed.

Lemma fold_left_append {A} (f : A → string) l init :
  fold_left (λ acc a, acc +:+ f a) l init = init +:+ concat_all (map f l).
Proof.
  revert init. induction l as [|a l IH]; intros init; simpl.
  - by rewrite str_app_nil_r.
  - by rewrite IH, str_app_assoc.
Qed.

Lemma sitemap_entries_eq articles :
  sitemap_entries articles
  = root_entry :: archive_entry :: map article_entry articles.
Proof. unfold sitemap_entries. by rewrite (fold_left_snoc article_entry). Qed.

Lemma sitemap_xml_eq entries :
  sitemap_xml entries
  = sitemap_header +:+ concat_all (map sitemap_url entries) +:+ "</urlset>" +:+ nl.
Proof.
  unfold sitemap_xml. rewrite (fold_left_append sitemap_url).
  by rewrite str_app_assoc.
Qed.

Lemma bind_ok {S A B} (m : M S A) (f : A → M S B) s b s' :
  (m ≫= f) s = (Ok b, s') → ∃ a s1, m s = (Ok a, s1) ∧ f a s1 = (Ok b, s').
Proof.
  rewrite bind_unfold. destruct (m s) as [[a|e] s1]; [|done]. by exists a, s1.
Qed.

Lemma lift_ok {S A} (r : exception + A) (s : S) a s' :
  lift r s = (Ok a, s') → r = inr a ∧ s' = s.
Proof. destruct r; munfold; [done|]. by intros [= -> ->]. Qed.

Lemma echo_ok line s u s' :
  echo line s = (Ok u, s') → actions s' = actions s.
Proof. unfold echo. munfold. by intros [= _ <-]. Qed.

Lemma act_ok a s u s' :
  act a s = (Ok u, s') → actions s' = actions s ++ [a].
Proof. unfold act. munfold. by intros [= _ <-]. Qed.

Lemma act_if_ok (b : bool) a s u s' :
  (if b then act a else mret ()) s = (Ok u, s') →
  actions s' = actions s ++ (if b then [a] else []).
Proof.
  destruct b; [apply act_ok|]. munfold. intros [= _ <-]. by rewrite app_nil_r.
Qed.

Lemma build_pages_ok `{Site} render articles s u s' :
  build_pages render (joinpath OUTPUT_DIR "article") articles s = (Ok u, s') →
  ∃ pages, actions s' = actions s ++ pages ∧ Forall2 (is_page render) articles pages.
Proof.
  intros Hb. pose proof (build_pages_spec render articles s) as Hs.
  rewrite Hb in Hs. destruct Hs as (pages & ? & _ & ?). by exists pages.
Qed.

(** A build that ends well: the three templates were found and rendered,
    every page was rendered, and the file system saw [site_actions]. *)
Lemma build_site_trace `{Site} s s' :
  build_site s = (Ok (), s') →
  let articles := sort_reverse date_key (loaded_articles article_files) in
  ∃ index_tmpl index_html article_tmpl pages archive_tmpl archive_html,
    get_template globals "index.html" = inr index_tmpl
    ∧ index_tmpl [("articles", Dicts (take 30 articles));
                  ("categories",
                   Groups (group_by (λ a, default "general" (a !! "category"))
                             articles))] = inr index_html
    ∧ get_template globals "article.html" = inr article_tmpl
    ∧ Forall2 (is_page article_tmpl) articles pages
    ∧ get_template globals "archive.html" = inr archive_tmpl
    ∧ archive_tmpl [("months", Groups (group_by month_key articles));
                    ("total", Int (length articles))] = inr archive_html
    ∧ actions s' = actions s ++ site_actions articles index_html archive_html pages.
Proof.
  intros Hb articles. unfold build_site in Hb.
  apply bind_ok in Hb as (arts & s1 & Hl & Hb).
  destruct (load_articles_spec s) as (s1' & Hl' & A1). rewrite Hl' in Hl.
  injection Hl as <- <-. fold articles in Hb.
  apply bind_ok in Hb as (? & s2 & A2%echo_ok & Hb).
  apply bind_ok in Hb as (? & s3 & A3%act_if_ok & Hb).
  apply bind_ok in Hb as (? & s4 & A4%act_ok & Hb).
  apply bind_ok in Hb as (? & s5 & A5%act_if_ok & Hb).
  apply bind_ok in Hb as (index_tmpl & s6 & [Hi ->]%lift_ok & Hb).
  apply bind_ok in Hb as (index_html & s7 & [Hih ->]%lift_ok & Hb).
  apply bind_ok in Hb as (? & s8 & A8%act_ok & Hb).
  apply bind_ok in Hb as (? & s9 & A9%echo_ok & Hb).
  apply bind_ok in Hb as (article_tmpl & s10 & [Ha ->]%lift_ok & Hb).
  apply bind_ok in Hb as (? & s11 & A11%act_ok & Hb).
  apply bind_ok in Hb as (? & s12 & (pages & A12 & Hpages)%build_pages_ok & Hb).
  apply bind_ok in Hb as (? & s13 & A13%echo_ok & Hb).
  apply bind_ok in Hb as (archive_tmpl & s14 & [Har ->]%lift_ok & Hb).
  apply bind_ok in Hb as (archive_html & s15 & [Hah ->]%lift_ok & Hb).
  apply bind_ok in Hb as (? & s16 & A16%act_ok & Hb).
  apply bind_ok in Hb as (? & s17 & A17%echo_ok & Hb).
  apply bind_ok in Hb as (? & s18 & A18%act_ok & Hb).
  apply bind_ok in Hb as (? & s19 & A19%echo_ok & Hb).
  apply bind_ok in Hb as (? & s20 & A20%act_ok & Hb).
  apply bind_ok in Hb as (? & s21 & A21%echo_ok & Hb).
  apply echo_ok in Hb.
  exists index_tmpl, index_html, article_tmpl, pages, archive_tmpl, archive_html.
  split_and!; try done.
  rewrite Hb, A21, A20, A19, A18, A17, A16, A13, A12, A11, A9, A8, A5, A4, A3, A2, A1.
  unfold site_actions. by rewrite <-!(assoc_L (++)).
Qed.

(** C5. [load_articles] always returns, and what it returns is the
    articles of the files that load, sorted: the same articles, in
    descending order of their [date] compared as strings, code point by
    code point, articles of one date in the order they were loaded in. An
    article with no [date] has the empty string for its key, so nothing
    but articles with an empty key follows it. A build that ends well has
    rendered the index template on the first 30 articles of that list,
    which are all of them when there are fewer than 30, and has written
    the result to [index.html]. *)
Theorem load_articles_sorted `{Site} (s : build) :
  let articles := sort_reverse date_key (loaded_articles article_files) in
  (∃ s', load_articles s = (Ok articles, s'))
  ∧ articles ≡ₚ loaded_articles article_files
  ∧ StronglySorted (descending date_key) articles
  ∧ (∀ k, filter (λ a, date_key a = k) articles
          = filter (λ a, date_key a = k) (loaded_articles article_files))
  ∧ (∀ a : gmap string string, a !! "date" = None → date_key a = "")
  ∧ (∀ i j a b, i < j → articles !! i = Some a → articles !! j = Some b →
                a !! "date" = None → date_key b = "")
  ∧ length (take 30 articles) = 30 `min` length articles
  ∧ (∀ s', build_site s = (Ok (), s') →
       ∃ index_tmpl index_html categories,
         get_template globals "index.html" = inr index_tmpl
         ∧ index_tmpl [("articles", Dicts (take 30 articles));
                       ("categories", Groups categories)] = inr index_html
         ∧ WriteText (joinpath OUTPUT_DIR "index.html") index_html ∈ actions s').
Proof.
  intros articles. split_and!.
  - destruct (load_articles_spec s) as (s' & Hl & _). by exists s'.
  - apply sort_reverse_perm.
  - apply sort_reverse_sorted.
  - intros k. apply sort_reverse_stable.
  - intros a Ha. unfold date_key. by rewrite Ha.
  - intros i j a b Hij Hi Hj Ha.
    eapply (sorted_empty_last date_key articles i j a b);
      [apply sort_reverse_sorted|done..|]. unfold date_key. by rewrite Ha.
  - apply length_take.
  - intros s' Hb.
    destruct (build_site_trace s s' Hb)
      as (index_tmpl & index_html & ? & pages & ? & archive_html & Hi & Hih & _ & _ & _ & _ & Hact).
    exists index_tmpl, index_html. eexists. split_and!; [done..|].
    rewrite Hact. unfold site_actions. rewrite !elem_of_app, !elem_of_cons. tauto.
Qed.

(** C6. The entries of the sitemap of [n] articles are the root of the
    site with priority 1.0, the archive page with priority 0.8, and one
    entry with priority 0.6 for each article, in the order of the
    articles: [n + 2] entries, and the first two alone when there is no
    article. The text of the sitemap is its two header lines, the [url]
    element of the root, the [url] element of the archive page, one
    [url] element for each article in the order of the articles, and the
    closing tag; each element holds the location and the priority of its
    entry. With no article the text is the header, the two elements of
    the root and of the archive page, and the closing tag. A build that
    ends well writes the text to [sitemap.xml]. *)
Theorem sitemap_shape (articles : list (gmap string string)) :
  sitemap_entries articles
  = {| loc := SITE_URL +:+ "/"; priority := "1.0" |}
    :: {| loc := SITE_URL +:+ "/archive.html"; priority := "0.8" |}
    :: map (λ a, {| loc := SITE_URL +:+ "/article/" +:+ default "" (a !! "slug")
                           +:+ ".html";
                    priority := "0.6" |}) articles
  ∧ length (sitemap_entries articles) = length articles + 2
  ∧ sitemap_entries [] = [root_entry; archive_entry]
  ∧ sitemap_xml (sitemap_entries articles)
    = ("<?xml version=" +:+ String "034" "1.0" +:+ String "034" " encoding="
       +:+ String "034" "UTF-8" +:+ String "034" "?>" +:+ nl
       +:+ "<urlset xmlns=" +:+ String "034"
             "http://www.sitemaps.org/schemas/sitemap/0.9"
       +:+ String "034" ">" +:+ nl)
      +:+ ("  <url>" +:+ nl
           +:+ "    <loc>" +:+ (SITE_URL +:+ "/") +:+ "</loc>" +:+ nl
           +:+ "    <priority>" +:+ "1.0" +:+ "</priority>" +:+ nl
           +:+ "  </url>" +:+ nl)
      +:+ ("  <url>" +:+ nl
           +:+ "    <loc>" +:+ (SITE_URL +:+ "/archive.html") +:+ "</loc>" +:+ nl
           +:+ "    <priority>" +:+ "0.8" +:+ "</priority>" +:+ nl
           +:+ "  </url>" +:+ nl)
      +:+ concat_all
            (map (λ a, "  <url>" +:+ nl
                       +:+ "    <loc>"
                       +:+ (SITE_URL +:+ "/article/" +:+ default "" (a !! "slug")
                            +:+ ".html")
                       +:+ "</loc>" +:+ nl
                       +:+ "    <priority>" +:+ "0.6" +:+ "</priority>" +:+ nl
                       +:+ "  </url>" +:+ nl) articles)
      +:+ "</urlset>" +:+ nl
  ∧ sitemap_xml (sitemap_entries [])
    = "<?xml version=" +:+ String "034" "1.0" +:+ String "034" " encoding="
      +:+ String "034" "UTF-8" +:+ String "034" "?>" +:+ nl
      +:+ "<urlset xmlns=" +:+ String "034"
            "http://www.sitemaps.org/schemas/sitemap/0.9"
      +:+ String "034" ">" +:+ nl
      +:+ "  <url>" +:+ nl
      +:+ "    <loc>https://elloloop.github.io/ai-news/</loc>" +:+ nl
      +:+ "    <priority>1.0</priority>" +:+ nl
      +:+ "  </url>" +:+ nl
      +:+ "  <url>" +:+ nl
      +:+ "    <loc>https://elloloop.github.io/ai-news/archive.html</loc>" +:+ nl
      +:+ "    <priority>0.8</priority>" +:+ nl
      +:+ "  </url>" +:+ nl
      +:+ "</urlset>" +:+ nl
  ∧ (∀ (H : Site) s s',
       build_site s = (Ok (), s') →
       WriteText (joinpath OUTPUT_DIR "sitemap.xml")
         (sitemap_xml (sitemap_entries
            (sort_reverse date_key (loaded_articles article_files))))
       ∈ actions s').
Proof.
  split_and!.
  - apply sitemap_entries_eq.
  - rewrite sitemap_entries_eq. simpl. rewrite length_map. lia.
  - done.
  - rewrite sitemap_xml_eq, sitemap_entries_eq. cbn [map concat_all].
    rewrite map_map, <-!str_app_assoc. reflexivity.
  - reflexivity.
  - intros H s s' Hb.
    destruct (build_site_trace s s' Hb)
      as (? & index_html & ? & pages & ? & archive_html & _ & _ & _ & _ & _ & _ & Hact).
    rewrite Hact. unfold site_actions. rewrite !elem_of_app, !elem_of_cons. tauto.
Qed.


(** A site of three files: one with no slug and no date, two dated
    ones. The article without a date comes last; its page is
    [untitled.html] and its location in the sitemap is [/article/.html]. *)
Lemma load_articles_sorted_witness :
  let files : gmap string (exception + post) :=
    list_to_map [("a.md", Demo.stored "a" "2024-01-02");
                 ("b.md", inr {| metadata := ∅; content := "x" |});
                 ("c.md", Demo.stored "c" "2024-01-03")] in
  let articles :=
    sort_reverse date_key (loaded_articles (@article_files (Demo.site files))) in
  date_key <$> articles = ["2024-01-03"; "2024-01-02"; ""]
  ∧ (∃ s', @build_site (Demo.site files) Demo.fresh = (Ok (), s')
           ∧ WriteText "/repo/_site/index.html" "index.html:3" ∈ actions s').
Proof.
  intros files articles. split; [reflexivity|].
  pose proof (@load_articles_sorted (Demo.site files) Demo.fresh)
    as (_ & _ & _ & _ & _ & _ & _ & Hindex).
  eexists. split; [vm_compute; reflexivity|].
  match goal with |- _ ∈ actions ?s' => specialize (Hindex s' eq_refl) end.
  destruct Hindex as (index_tmpl & index_html & categories & Hi & Hih & Hin).
  injection Hi as <-. injection Hih as <-. exact Hin.
Defined.


(** A site with no article: the build ends well and its sitemap has the
    root and the archive page, and nothing else. *)
Lemma sitemap_shape_witness :
  ∃ s', @build_site (Demo.site ∅) Demo.fresh = (Ok (), s')
        ∧ WriteText "/repo/_site/sitemap.xml"
            (sitemap_xml [root_entry; archive_entry]) ∈ actions s'.
Proof.
  pose proof (sitemap_shape []) as (_ & _ & _ & _ & _ & Hbuild).
  eexists. split; [vm_compute; reflexivity|].
  match goal with |- _ ∈ actions ?s' =>
    exact (Hbuild (Demo.site ∅) Demo.fresh s' eq_refl) end.
Defined.

(** Four words of five letters cut at 10: the result is the first word
    and the ellipsis, and the first word is followed by a space. *)
Lemma truncate_description_shape_witness :
  String.length (@truncate_description Demo.html "word1 word2 word3 word4" 10)
  ≤ 10 + 3
  ∧ ∃ p, @truncate_description Demo.html "word1 word2 word3 word4" 10 = p +:+ "..."
         ∧ ∃ r, @strip_html Demo.html "word1 word2 word3 word4" = p +:+ String " " r.
Proof.
  destruct (@truncate_description_shape Demo.html "word1 word2 word3 word4" 10)
    as (Hlen & _ & Hcut).
  split; [exact Hlen|].
  destruct Hcut as (p & Hout & _ & _ & Hspace & _); [vm_compute; lia|].
  exists p. split; [exact Hout|]. exact (proj1 (Hspace eq_refl)).
Defined.

(** * Further properties of the two scripts *)

(** ** strip_html *)

Lemma lstrip_all p cls s : Py.all p s = true → Py.all p (Py.lstrip cls s) = true.
Proof.
  intros Hs. destruct (lstrip_suffix cls s) as [r Hr].
  rewrite Hr in Hs. by apply all_suffix in Hs.
Qed.

Lemma rstrip_all p cls s : Py.all p s = true → Py.all p (Py.rstrip cls s) = true.
Proof.
  intros Hs. destruct (rstrip_prefix cls s) as [r Hr].
  rewrite Hr in Hs. by apply all_prefix in Hs.
Qed.

Lemma all_true s : Py.all (λ _, true) s = true.
Proof. by induction s. Qed.

Lemma strip_html_facts `{Html} (text : string) :
  Py.all plain_char (strip_html text) = true
  ∧ Py.no_repeat " " (strip_html text) = true
  ∧ (∀ c, Py.head (strip_html text) = Some c → Py.isspace c = false)
  ∧ (∀ c, Py.last (strip_html text) = Some c → Py.isspace c = false).
Proof.
  unfold strip_html. destruct (String.eqb text ""); [done|].
  unfold Py.strip, Py.re_sub_runs.
  set (t := Py.re_sub_runs_from Py.isspace " " false _).
  assert (Py.all plain_char t = true) as Hall.
  { eapply all_impl; [|apply (all_re_sub_runs Py.isspace " " (λ _, true)), all_true].
    intros c. unfold plain_char. by destruct (c =? " ")%char. }
  assert (Py.no_repeat " " t = true) as Hrep by (by apply re_sub_runs_no_repeat).
  destruct (rstrip_prefix Py.isspace (Py.lstrip Py.isspace t)) as [r2 H2].
  destruct (lstrip_suffix Py.isspace t) as [r3 H3].
  split_and!.
  - by apply rstrip_all, lstrip_all.
  - rewrite H3 in Hrep. apply no_repeat_suffix in Hrep.
    rewrite H2 in Hrep. by apply no_repeat_prefix in Hrep.
  - intros c Hc.
    destruct (decide (Py.rstrip Py.isspace (Py.lstrip Py.isspace t) = "")) as [He|Hne].
    + by rewrite He in Hc.
    + rewrite rstrip_head in Hc by done. by eapply lstrip_head.
  - intros c Hc. by eapply rstrip_last.
Qed.

(** X1. The text that [strip_html] returns is normal, whatever the entity
    table does: every white space character in it is a space (so it
    holds no line feed, no carriage return and no tab), no two spaces are
    neighbours, and it neither starts nor ends with white space. *)
Theorem strip_html_normal `{Html} (text : string) :
  Py.all plain_char (strip_html text) = true
  ∧ Py.all (λ c, negb (c =? "010")%char && negb (c =? "013")%char
                 && negb (c =? "009")%char) (strip_html text) = true
  ∧ Py.no_repeat " " (strip_html text) = true
  ∧ (∀ c, Py.head (strip_html text) = Some c → Py.isspace c = false)
  ∧ (∀ c, Py.last (strip_html text) = Some c → Py.isspace c = false).
Proof.
  destruct (strip_html_facts text) as (H1 & H2 & H3 & H4).
  split_and!; try done.
  eapply all_impl; [|exact H1]. intros c. unfold plain_char.
  destruct (Ascii.eqb_spec c "010") as [->|?]; [by vm_compute|].
  destruct (Ascii.eqb_spec c "013") as [->|?]; [by vm_compute|].
  destruct (Ascii.eqb_spec c "009") as [->|?]; [by vm_compute|done].
Qed.

(** ** The fields of an article *)

Lemma hex_slug_char c : is_hex c = true → slug_char c = true.
Proof. destruct c as [[] [] [] [] [] [] [] []]; by vm_compute. Qed.

Lemma digit_slug_char n : slug_char (pretty_N_char n) = true.
Proof. unfold pretty_N_char. by repeat case_match. Qed.

Lemma slug_char_safe c :
  slug_char c = true →
  negb (c =? "/")%char && negb (c =? ".")%char && negb (c =? "\")%char
  && negb (Py.isspace c) = true.
Proof. destruct c as [[] [] [] [] [] [] [] []]; by vm_compute. Qed.

(** X2. Every article that [fetch_feed] returns carries the name of the
    feed as its source and the category of the feed, [general] when the
    config has none; its title is a normal text on one line; and its slug
    is made of hyphens and of the characters that the pattern of
    [slugify] keeps as word characters (letters, numbers and the
    underscore) only, so that it holds no slash, no backslash, no dot and
    no white space, and the file [slug.md] lies in the content
    directory. *)
Theorem fetched_article_fields `{World} feed_config cutoff_date s articles s' a :
  fetch_feed feed_config cutoff_date s = (Ok articles, s') →
  a ∈ articles →
  feed_config !! "name" = Some (source a)
  ∧ category a = default "general" (feed_config !! "category")
  ∧ Py.all plain_char (title a) = true
  ∧ Py.contains "010" (title a) = false
  ∧ Py.all (λ c, Py.re_word c || (c =? "-")%char) (slug a) = true
  ∧ Py.contains "/" (slug a) = false
  ∧ Py.contains "." (slug a) = false
  ∧ Py.contains "\" (slug a) = false
  ∧ Py.all (λ c, negb (Py.isspace c)) (slug a) = true.
Proof.
  intros Hfetch Ha.
  destruct (fetch_feed_inv _ _ _ _ _ Hfetch) as (name & Hname & Hall & _).
  rewrite Forall_forall in Hall.
  destruct (Hall a Ha) as (entry & d & sm & -> & _). simpl.
  destruct (strip_html_normal (default "Untitled" (entry !! "title")))
    as (Ht1 & Ht2 & _).
  assert (Py.all slug_char
            (Datetime.strftime_Ymd d +:+ "-" +:+ slugify (entry_title entry) +:+ "-"
             +:+ article_id (entry_link entry)) = true) as Hslug.
  { unfold Datetime.strftime_Ymd. rewrite !all_app. simpl.
    rewrite pretty_Z_all, !pad2_all by (done || apply digit_slug_char).
    rewrite slugify_chars. simpl.
    eapply all_impl; [apply hex_slug_char|apply article_id_shape]. }
  assert (∀ p : ascii → bool,
            (∀ c, slug_char c = true → p c = true) →
            Py.all p (Datetime.strftime_Ymd d +:+ "-" +:+ slugify (entry_title entry)
                      +:+ "-" +:+ article_id (entry_link entry)) = true) as Himpl.
  { intros p Hp. by eapply all_impl. }
  split_and!; try done.
  - apply all_not_contains. eapply all_impl; [|exact Ht2].
    intros c. by intros [[? _]%andb_true_iff _]%andb_true_iff.
  - apply Himpl. intros c. unfold slug_char, Py.re_word.
    destruct (c =? "-")%char, (c =? "_")%char, (Py.isalnum c); done.
  - apply all_not_contains, Himpl. intros c Hc%slug_char_safe.
    by destruct (c =? "/")%char.
  - apply all_not_contains, Himpl. intros c Hc%slug_char_safe.
    by destruct (c =? "/")%char, (c =? ".")%char.
  - apply all_not_contains, Himpl. intros c Hc%slug_char_safe.
    by destruct (c =? "/")%char, (c =? ".")%char, (c =? "\")%char.
  - apply Himpl. intros c Hc%slug_char_safe.
    by destruct (c =? "/")%char, (c =? ".")%char, (c =? "\")%char, (Py.isspace c).
Qed.

Lemma fetched_article_fields_witness :
  let a := {| title := "GPT-5 Launches"; url := "https://x.com/1";
              source := "X Blog"; category := "labs";
              date := "2024-01-15T10:30:00Z";
              summary := "The new model is out.";
              slug := "2024-01-15-gpt-5-launches-a5a1a0c4812e" |} in
  Demo.feed !! "name" = Some (source a)
  ∧ category a = default "general" (Demo.feed !! "category")
  ∧ Py.all plain_char (title a) = true
  ∧ Py.contains "010" (title a) = false
  ∧ Py.all (λ c, Py.re_word c || (c =? "-")%char) (slug a) = true
  ∧ Py.contains "/" (slug a) = false
  ∧ Py.contains "." (slug a) = false
  ∧ Py.contains "\" (slug a) = false
  ∧ Py.all (λ c, negb (Py.isspace c)) (slug a) = true.
Proof.
  intros a.
  refine (@fetched_article_fields (Demo.world None [Demo.entry1]) Demo.feed Demo.cutoff
            (Demo.start []) [a] _ a _ _).
  - vm_compute. reflexivity.
  - by left.
Defined.

(** ** The content directory *)

Lemma get_existing_urls_returns s :
  ∃ urls, get_existing_urls s = (Ok urls, s)
          ∧ ∀ u, u ∈ urls ↔ stored_url (content_dir s) u.
Proof.
  unfold get_existing_urls. munfold. simpl. eexists. split; [reflexivity|].
  intros u. rewrite elem_of_list_to_set, list_elem_of_omap. unfold stored_url. split.
  - intros ([name [e|p]] & Hin%elem_of_map_to_list & Hu); [done|].
    destruct (is_md name) eqn:Hmd; [|done]. by exists name, p.
  - intros (name & p & Hin & Hmd & Hu). exists (name, inr p).
    split; [by apply elem_of_map_to_list|]. by rewrite Hmd.
Qed.

(** X3. [get_existing_urls] never raises and changes nothing. The set it
    returns holds exactly the [url] values of the files of the content
    directory that are named [*.md] and load: a file that fails to load,
    a file with another extension and a file whose metadata has no [url]
    contribute nothing, and an empty directory gives the empty set. *)
Theorem get_existing_urls_exact (s : run) :
  ∃ urls,
    get_existing_urls s = (Ok urls, s)
    ∧ (∀ u, u ∈ urls ↔
            ∃ name p, content_dir s !! name = Some (inr p) ∧ is_md name = true
                      ∧ metadata p !! "url" = Some u)
    ∧ (∀ name e u, content_dir s !! name = Some (inl e) →
         (∀ other p, content_dir s !! other = Some (inr p) →
                     metadata p !! "url" ≠ Some u) →
         u ∉ urls)
    ∧ (content_dir s = ∅ → urls = ∅).
Proof.
  destruct (get_existing_urls_returns s) as (urls & Hget & Hurls).
  exists urls. split_and!; [done|exact Hurls|..].
  - intros name e u _ Hno Hu. apply Hurls in Hu as (other & p & Hin & _ & Hp).
    by eapply Hno.
  - intros Hdir. apply set_eq. intros u. rewrite Hurls. unfold stored_url.
    rewrite Hdir. split; [|set_solver]. intros (name & p & Hin & _).
    by rewrite lookup_empty in Hin.
Qed.

(** ** A feed config that lacks a key *)

Lemma fetch_feed_raises `{World} feed_config cutoff_date s e s' :
  fetch_feed feed_config cutoff_date s = (Raise e, s') →
  s' = s
  ∧ ((feed_config !! "name" = None ∧ e = Exc "KeyError" "name")
     ∨ (feed_config !! "url" = None ∧ e = Exc "KeyError" "url")).
Proof.
  destruct (feed_config !! "name") as [name|] eqn:Hname.
  - destruct (feed_config !! "url") as [u|] eqn:Hurl.
    + destruct (fetch_feed_returns feed_config cutoff_date s name u Hname Hurl)
        as (articles & s1 & ->). done.
    + unfold fetch_feed, getitem. rewrite Hname, Hurl. munfold.
      intros [= <- <-]. split; [done|]. by right.
  - unfold fetch_feed, getitem. rewrite Hname. munfold.
    intros [= <- <-]. split; [done|]. by left.
Qed.

(** X6. [fetch_feed] raises exactly when the feed config has no [name]
    or no [url]: the exception is the [KeyError] of the first missing key
    and nothing was printed, fetched or changed. Unlike a feed that cannot
    be retrieved, such a config stops the loop of [main]: the feeds after
    it are not fetched. *)
Theorem fetch_feed_missing_key `{World} feed_config cutoff_date (s : run) :
  (feed_config !! "name" = None →
   fetch_feed feed_config cutoff_date s = (Raise (Exc "KeyError" "name"), s))
  ∧ (is_Some (feed_config !! "name") → feed_config !! "url" = None →
     fetch_feed feed_config cutoff_date s = (Raise (Exc "KeyError" "url"), s))
  ∧ (∀ e s', fetch_feed feed_config cutoff_date s = (Raise e, s') →
       s' = s ∧ (feed_config !! "name" = None ∨ feed_config !! "url" = None))
  ∧ (∀ e rest total_new,
       fetch_feed feed_config cutoff_date s = (Raise e, s) →
       fetch_feeds (feed_config :: rest) cutoff_date total_new s = (Raise e, s)).
Proof.
  split_and!.
  - intros Hname. unfold fetch_feed, getitem. rewrite Hname. by munfold.
  - intros [name Hname] Hurl. unfold fetch_feed, getitem. rewrite Hname, Hurl.
    by munfold.
  - intros e s' Hr. destruct (fetch_feed_raises _ _ _ _ _ Hr) as (-> & [[? _]|[? _]]);
      auto.
  - intros e rest total_new Hr. simpl. by rewrite bind_unfold, Hr.
Qed.

(** The feed list of the test double with a config that has no url in
    front: the run stops at it with a [KeyError] and fetches nothing. *)
Lemma fetch_feed_missing_key_witness :
  let W := Demo.world None [Demo.entry1] in
  let nameless : gmap string string := {[ "name" := "No url" ]} in
  @fetch_feeds W [nameless; Demo.feed] Demo.cutoff 0 (Demo.start [])
  = (Raise (Exc "KeyError" "url"), Demo.start []).
Proof.
  intros W nameless.
  pose proof (@fetch_feed_missing_key W nameless Demo.cutoff (Demo.start []))
    as (_ & Hurl & _ & Hstop).
  apply Hstop. apply Hurl; [by eexists|reflexivity].
Defined.

(** X7. [fetch_feed] returns articles and nothing else: whether it
    returns or raises, it leaves every file of the content directory as
    it was and removes no url from the set. *)
Theorem fetch_feed_frame `{World} feed_config cutoff_date (s : run) :
  content_dir (fetch_feed feed_config cutoff_date s).2 = content_dir s
  ∧ existing_urls s ⊆ existing_urls (fetch_feed feed_config cutoff_date s).2.
Proof.
  destruct (fetch_feed feed_config cutoff_date s) as [[articles|e] s'] eqn:Hf; simpl.
  - destruct (fetch_feed_inv _ _ _ _ _ Hf) as (_ & _ & _ & _ & -> & ->).
    split; [done|set_solver].
  - by destruct (fetch_feed_raises _ _ _ _ _ Hf) as (-> & _).
Qed.

(** ** Entries that the cutoff cannot drop *)

(** X8. Take an entry whose link passes. When it has no [published] and
    no [updated] text, or when that text does not parse, the entry makes
    an article dated by the clock, whatever the cutoff is, a cutoff in the
    future too. And when the cutoff is a naive date, the comparison with
    it raises inside the [try], so every such entry makes an article
    dated by the clock, even when its own date parses and is old. *)
Theorem undated_entry_kept `{World} name category cutoff_date entry (s : run) :
  entry_link entry ≠ "" →
  entry_link entry ∉ existing_urls s →
  let field := py_or (entry !! "published") (entry !! "updated") in
  let now t := Datetime.replace_tzinfo_utc (clock t) in
  (truthy field = false →
   ∃ sm s', fetch_entry name category cutoff_date entry s
            = (Ok (Some (entry_article name category entry (now (ticks s)) sm)), s'))
  ∧ (∀ e, truthy field = true →
       dateparser_parse (ticks s) (default "" field) = inl e →
       ∃ sm s', fetch_entry name category cutoff_date entry s
                = (Ok (Some (entry_article name category entry
                               (now (S (ticks s))) sm)), s'))
  ∧ (Datetime.tzinfo cutoff_date = None → truthy field = true →
     ∃ sm s', fetch_entry name category cutoff_date entry s
              = (Ok (Some (entry_article name category entry
                             (now (S (ticks s))) sm)), s')).
Proof.
  intros Hne Hnin field now.
  assert (∀ d s1, entry_date entry cutoff_date s = (Ok (Some d), s1) →
            ∃ sm s', fetch_entry name category cutoff_date entry s
                     = (Ok (Some (entry_article name category entry d sm)), s')) as Hkeep.
  { intros d s1 Hd.
    destruct (fetch_entry_cases name category cutoff_date entry s)
      as [[_ [?|?]]|(_ & _ & [(s2 & Hd2 & _)|(d' & s2 & sm & s3 & Hd2 & _ & _ & Hf)])];
      [done|done|congruence|].
    rewrite Hd in Hd2. injection Hd2 as <- <-. by eexists _, _. }
  split_and!.
  - intros Hf. eapply Hkeep. unfold entry_date, datetime_now. fold field.
    rewrite Hf. munfold. reflexivity.
  - intros e Hf He. eapply Hkeep. unfold entry_date, datetime_now. fold field.
    rewrite Hf. munfold. rewrite He. reflexivity.
  - intros Hnaive Hf. eapply Hkeep. unfold entry_date, datetime_now. fold field.
    rewrite Hf. munfold.
    destruct (dateparser_parse (ticks s) (default "" field)) as [e|d]; [reflexivity|].
    simpl. unfold Datetime.lt. rewrite Hnaive.
    destruct (Datetime.tzinfo d) eqn:Hd; simpl; rewrite ?Hd; munfold; reflexivity.
Qed.

(** With a cutoff a year after the clock, the entry without a date is
    kept all the same. *)
Lemma undated_entry_kept_witness :
  ∃ sm s',
    @fetch_entry (Demo.world None []) "X Blog" "labs"
      (Datetime.mk 2025 1 15 0 0 0 0 (Some 0%Z)) Demo.entry_undated (Demo.start [])
    = (Ok (Some (@entry_article Demo.html "X Blog" "labs" Demo.entry_undated
                   Demo.now sm)), s').
Proof.
  refine (proj1 (@undated_entry_kept (Demo.world None []) "X Blog" "labs"
                   (Datetime.mk 2025 1 15 0 0 0 0 (Some 0%Z)) Demo.entry_undated
                   (Demo.start []) _ _) eq_refl).
  - vm_compute. discriminate.
  - vm_compute. set_solver.
Defined.

(** ** Grouping by category and by month *)

Lemma first_occurrences_NoDup l : NoDup (first_occurrences l).
Proof.
  induction l as [|k l IH]; simpl; [constructor|].
  constructor; [|by apply NoDup_filter].
  rewrite list_elem_of_filter. by intros [? _].
Qed.

Lemma first_occurrences_elem l k : k ∈ first_occurrences l ↔ k ∈ l.
Proof.
  induction l as [|x l IH]; simpl; [done|].
  rewrite !elem_of_cons, list_elem_of_filter, IH.
  destruct (decide (k = x)); naive_solver.
Qed.

Lemma first_occurrences_snoc l k :
  first_occurrences (l ++ [k])
  = first_occurrences l ++ (if decide (k ∈ l) then [] else [k]).
Proof.
  induction l as [|x l IH]; simpl.
  { destruct (decide (k ∈ [])) as [Hin|_]; [by apply elem_of_nil in Hin|done]. }
  rewrite IH, filter_app. f_equal. f_equal.
  destruct (decide (k ∈ l)) as [Hin|Hnin].
  - rewrite decide_True by (by right). done.
  - destruct (decide (k = x)) as [->|Hne].
    + rewrite decide_True by (by left). rewrite filter_cons.
      by rewrite decide_False by (by intros ?).
    + rewrite decide_False by (rewrite elem_of_cons; naive_solver).
      rewrite filter_cons. by rewrite decide_True.
Qed.

Lemma setdefault_append_map {A} (k : string) (a : A) (F : string → list A) ks :
  NoDup ks →
  setdefault_append k a (map (λ k', (k', F k')) ks)
  = map (λ k', (k', F k' ++ if decide (k' = k) then [a] else [])) ks
    ++ (if decide (k ∈ ks) then [] else [(k, [a])]).
Proof.
  induction 1 as [|k' ks Hnin Hnd IH]; simpl.
  { destruct (decide (k ∈ [])) as [Hin|_]; [by apply elem_of_nil in Hin|done]. }
  destruct (String.eqb_spec k k') as [<-|Hne].
  - rewrite decide_True by done. rewrite decide_True by (by left).
    rewrite app_nil_r. f_equal. apply map_ext_in. intros k'' Hin%list_elem_of_In.
    rewrite decide_False; [by rewrite app_nil_r|]. by intros ->.
  - rewrite decide_False by done. rewrite app_nil_r, IH. simpl. f_equal. f_equal.
    destruct (decide (k ∈ ks)) as [Hin|Hnin'].
    + by rewrite decide_True by (by right).
    + by rewrite decide_False by (rewrite elem_of_cons; naive_solver).
Qed.

Lemma filter_none {A} (P : A → Prop) `{∀ x, Decision (P x)} (l : list A) :
  Forall (λ x, ¬ P x) l → filter P l = [].
Proof.
  induction 1 as [|x l Hx _ IH]; [done|]. by rewrite filter_cons_False.
Qed.

Lemma group_by_canonical {A} (key : A → string) (l : list A) :
  group_by key l
  = map (λ k, (k, filter (λ a, key a = k) l)) (first_occurrences (key <$> l)).
Proof.
  unfold group_by.
  assert (∀ done rest,
    fold_left (λ groups a, setdefault_append (key a) a groups) rest
      (map (λ k, (k, filter (λ a, key a = k) done)) (first_occurrences (key <$> done)))
    = map (λ k, (k, filter (λ a, key a = k) (done ++ rest)))
        (first_occurrences (key <$> (done ++ rest)))) as Hgen.
  { intros done rest. revert done. induction rest as [|a rest IH]; intros done.
    { by rewrite app_nil_r. }
    simpl. rewrite (setdefault_append_map (key a) a) by apply first_occurrences_NoDup.
    replace (done ++ a :: rest) with ((done ++ [a]) ++ rest)
      by (by rewrite <-(assoc_L (++))).
    rewrite <-IH. f_equal.
    rewrite fmap_app. simpl. rewrite first_occurrences_snoc, map_app. f_equal.
    - apply map_ext. intros k. f_equal. rewrite filter_app, filter_cons. f_equal.
      destruct (decide (key a = k)) as [->|Hne].
      + by rewrite decide_True.
      + by rewrite decide_False by (by intros ->).
    - destruct (decide (key a ∈ key <$> done)) as [Hin|Hnin].
      { by rewrite decide_True by (by apply first_occurrences_elem). }
      rewrite decide_False by (by rewrite first_occurrences_elem). simpl.
      f_equal. f_equal. rewrite filter_app, filter_cons, decide_True by done.
      rewrite (filter_none _ done); [done|].
      rewrite Forall_forall. intros b Hb Hkb. apply Hnin.
      rewrite <-Hkb. by apply list_elem_of_fmap_2. }
  apply (Hgen [] l).
Qed.

Lemma setdefault_append_size {A} (k : string) (a : A) groups :
  sum_list (length <$> (setdefault_append k a groups).*2)
  = S (sum_list (length <$> groups.*2)).
Proof.
  induction groups as [|[k' g] groups IH]; [done|]. cbn [setdefault_append].
  destruct (String.eqb k k'); rewrite !fmap_cons; cbn [snd sum_list].
  - rewrite length_app. simpl. lia.
  - rewrite IH. lia.
Qed.

Lemma group_by_size {A} (key : A → string) (l : list A) :
  sum_list (length <$> (group_by key l).*2) = length l.
Proof.
  unfold group_by.
  assert (∀ init,
    sum_list (length <$> (fold_left (λ groups a, setdefault_append (key a) a groups)
                            l init).*2)
    = length l + sum_list (length <$> init.*2)) as Hgen.
  { induction l as [|a l IH]; intros init; [done|]. cbn [fold_left length].
    rewrite IH, setdefault_append_size. lia. }
  rewrite Hgen. simpl. lia.
Qed.

(** X9. The grouping that [build_site] makes for the categories and for
    the months of the archive ([setdefault] and [append] on a dict): the
    keys are the keys of the articles, each once, in the order of their
    first occurrence; the group of a key holds exactly the articles of
    that key, in their order, and is never empty; so every article is in
    one group and in no other, and the groups together have as many
    articles as the list. *)
Theorem group_by_partition {A} (key : A → string) (l : list A) :
  (group_by key l).*1 = first_occurrences (key <$> l)
  ∧ NoDup (group_by key l).*1
  ∧ (∀ k g, (k, g) ∈ group_by key l ↔
            k ∈ key <$> l ∧ g = filter (λ a, key a = k) l)
  ∧ (∀ k g, (k, g) ∈ group_by key l → g ≠ [])
  ∧ (∀ a k g, (k, g) ∈ group_by key l → a ∈ g ↔ a ∈ l ∧ key a = k)
  ∧ sum_list (length <$> (group_by key l).*2) = length l
  ∧ (l = [] → group_by key l = []).
Proof.
  rewrite group_by_canonical.
  set (ks := first_occurrences (key <$> l)).
  assert ((map (λ k, (k, filter (λ a, key a = k) l)) ks).*1 = ks) as Hkeys.
  { generalize ks. clear. intros ks.
    induction ks as [|k ks IH]; [done|]. rewrite map_cons, fmap_cons. simpl.
    by f_equal. }
  assert (∀ k g, (k, g) ∈ map (λ k, (k, filter (λ a, key a = k) l)) ks ↔
                 k ∈ key <$> l ∧ g = filter (λ a, key a = k) l) as Hmem.
  { intros k g. rewrite list_elem_of_In, in_map_iff. split.
    - intros (k' & [= <- <-] & Hin%list_elem_of_In).
      split; [by apply first_occurrences_elem|done].
    - intros [Hin ->]. exists k. split; [done|].
      by apply list_elem_of_In, first_occurrences_elem. }
  split_and!.
  - exact Hkeys.
  - rewrite Hkeys. apply first_occurrences_NoDup.
  - exact Hmem.
  - intros k g [Hin ->]%Hmem Hnil.
    apply list_elem_of_fmap in Hin as (a & -> & Ha).
    assert (a ∈ filter (λ b, key b = key a) l) as Hf
      by (by apply list_elem_of_filter).
    rewrite Hnil in Hf. by apply elem_of_nil in Hf.
  - intros a k g [_ ->]%Hmem. rewrite list_elem_of_filter. naive_solver.
  - subst ks. rewrite <-group_by_canonical. apply group_by_size.
  - by intros ->.
Qed.

(** ** A build that fails, a build that ends well *)

Lemma echo_returns line s :
  ∃ s', echo line s = (Ok (), s') ∧ actions s' = actions s.
Proof. by eexists. Qed.

Lemma act_returns a s :
  ∃ s', act a s = (Ok (), s') ∧ actions s' = actions s ++ [a].
Proof. by eexists. Qed.

Lemma act_if_returns (b : bool) a s :
  ∃ s', (if b then act a else mret ()) s = (Ok (), s')
        ∧ actions s' = actions s ++ (if b then [a] else []).
Proof. destruct b; eexists; (split; [reflexivity|]); simpl; by rewrite ?app_nil_r. Qed.

Lemma lift_inr {S A} (a : A) (s : S) : lift (inr a) s = (Ok a, s).
Proof. reflexivity. Qed.

Lemma lift_inl {S A} (e : exception) (s : S) : lift (A:=A) (inl e) s = (Raise e, s).
Proof. reflexivity. Qed.

Lemma build_pages_returns `{Site} render articles s :
  Forall (λ a, ∃ html, render [("article", Dict a)] = inr html) articles →
  ∃ s' pages, build_pages render (joinpath OUTPUT_DIR "article") articles s = (Ok (), s')
              ∧ actions s' = actions s ++ pages
              ∧ Forall2 (is_page render) articles pages.
Proof.
  intros Hall. revert s. induction Hall as [|a articles [html Ha] _ IH]; intros s.
  { exists s, []. by rewrite app_nil_r. }
  simpl. rewrite bind_unfold, Ha, lift_inr, bind_unfold.
  destruct (act_returns (WriteText (joinpath (joinpath OUTPUT_DIR "article")
                                      (article_page a)) html) s) as (s1 & -> & A1).
  destruct (IH s1) as (s' & pages & -> & A2 & Hpages).
  eexists s', (_ :: pages). split_and!; [done| |constructor; [by exists html|done]].
  by rewrite A2, A1, <-(assoc_L (++)).
Qed.

Lemma build_pages_fails `{Site} render before article after e s :
  Forall (λ a, ∃ html, render [("article", Dict a)] = inr html) before →
  render [("article", Dict article)] = inl e →
  ∃ s' pages,
    build_pages render (joinpath OUTPUT_DIR "article") (before ++ article :: after) s
    = (Raise e, s')
    ∧ actions s' = actions s ++ pages
    ∧ Forall2 (is_page render) before pages.
Proof.
  intros Hall He. revert s. induction Hall as [|a before [html Ha] _ IH]; intros s.
  { exists s, []. simpl. rewrite bind_unfold, He, lift_inl, app_nil_r. done. }
  simpl. rewrite bind_unfold, Ha, lift_inr, bind_unfold.
  destruct (act_returns (WriteText (joinpath (joinpath OUTPUT_DIR "article")
                                      (article_page a)) html) s) as (s1 & -> & A1).
  destruct (IH s1) as (s' & pages & -> & A2 & Hpages).
  eexists s', (_ :: pages). split_and!; [done| |constructor; [by exists html|done]].
  by rewrite A2, A1, <-(assoc_L (++)).
Qed.

(** The build up to the pages: when the first two templates are found
    and the index renders, the build reaches the loop over the articles
    with the index written. *)
Lemma build_site_until_pages `{Site} s articles index_tmpl index_html article_tmpl :
  sort_reverse date_key (loaded_articles article_files) = articles →
  get_template globals "index.html" = inr index_tmpl →
  index_tmpl [("articles", Dicts (take 30 articles));
              ("categories",
               Groups (group_by (λ a, default "general" (a !! "category")) articles))]
  = inr index_html →
  get_template globals "article.html" = inr article_tmpl →
  ∃ s0,
    actions s0 = actions s ++ setup_actions
                 ++ [WriteText (joinpath OUTPUT_DIR "index.html") index_html;
                     Mkdir (joinpath OUTPUT_DIR "article")]
    ∧ build_site s = build_rest articles article_tmpl s0.
Proof.
  intros Harts Hi Hih Ha. unfold build_site. rewrite bind_unfold.
  destruct (load_articles_spec s) as (s1 & -> & A1). rewrite Harts.
  rewrite bind_unfold.
  destruct (echo_returns ("Loaded " +:+ pretty (length articles) +:+ " articles") s1)
    as (s2 & -> & A2).
  rewrite bind_unfold.
  destruct (act_if_returns output_dir_exists (Rmtree OUTPUT_DIR) s2) as (s3 & -> & A3).
  rewrite bind_unfold.
  destruct (act_returns (Mkdir OUTPUT_DIR) s3) as (s4 & -> & A4).
  rewrite bind_unfold.
  destruct (act_if_returns static_dir_exists
              (Copytree STATIC_DIR (joinpath OUTPUT_DIR "static")) s4) as (s5 & -> & A5).
  rewrite bind_unfold, Hi, lift_inr, bind_unfold, Hih, lift_inr, bind_unfold.
  destruct (act_returns (WriteText (joinpath OUTPUT_DIR "index.html") index_html) s5)
    as (s6 & -> & A6).
  rewrite bind_unfold.
  destruct (echo_returns "Built: index.html" s6) as (s7 & -> & A7).
  rewrite bind_unfold, Ha, lift_inr, bind_unfold.
  destruct (act_returns (Mkdir (joinpath OUTPUT_DIR "article")) s7) as (s8 & -> & A8).
  exists s8. split; [|done].
  rewrite A8, A7, A6, A5, A4, A3, A2, A1. unfold setup_actions.
  by rewrite <-!(assoc_L (++)).
Qed.

(** X10. One article that does not render stops the whole build. When
    the templates of the index and of the articles are found, the index
    renders, the articles before some article render and that article
    raises, [build_site] raises that exception. By then the old output
    directory is removed and made again, and the index and the pages of
    the articles before are written; the pages of the articles after it,
    the archive, the sitemap and [robots.txt] are not. *)
Theorem build_site_page_failure `{Site} (s : build) before article after e
    index_tmpl index_html article_tmpl :
  sort_reverse date_key (loaded_articles article_files) = before ++ article :: after →
  get_template globals "index.html" = inr index_tmpl →
  index_tmpl [("articles", Dicts (take 30 (before ++ article :: after)));
              ("categories",
               Groups (group_by (λ a, default "general" (a !! "category"))
                         (before ++ article :: after)))]
  = inr index_html →
  get_template globals "article.html" = inr article_tmpl →
  Forall (λ a, ∃ html, article_tmpl [("article", Dict a)] = inr html) before →
  article_tmpl [("article", Dict article)] = inl e →
  ∃ s' pages,
    build_site s = (Raise e, s')
    ∧ Forall2 (is_page article_tmpl) before pages
    ∧ actions s' = actions s ++ setup_actions
                   ++ [WriteText (joinpath OUTPUT_DIR "index.html") index_html;
                       Mkdir (joinpath OUTPUT_DIR "article")]
                   ++ pages.
Proof.
  intros Harts Hi Hih Ha Hbefore He.
  destruct (build_site_until_pages s _ index_tmpl index_html article_tmpl
              Harts Hi Hih Ha) as (s0 & A0 & ->).
  unfold build_rest. rewrite bind_unfold.
  destruct (build_pages_fails article_tmpl before article after e s0 Hbefore He)
    as (s' & pages & -> & A1 & Hpages).
  exists s', pages. split_and!; [done..|].
  by rewrite A1, A0, <-!(assoc_L (++)).
Qed.

(** A site of two files, the older one without a slug, and a template
    that needs the slug: the build raises after the page of the newer
    article. *)
Lemma build_site_page_failure_witness :
  let files : gmap string (exception + post) :=
    list_to_map [("a.md", inr {| metadata := {[ "date" := "2024-01-02" ]};
                                 content := "" |});
                 ("c.md", Demo.stored "c" "2024-01-03")] in
  ∃ s' pages,
    @build_site (strict_site files) Demo.fresh
    = (Raise (Exc "UndefinedError" "slug is undefined"), s')
    ∧ actions s' = [Rmtree "/repo/_site"; Mkdir "/repo/_site";
                    WriteText "/repo/_site/index.html" "index.html";
                    Mkdir "/repo/_site/article"] ++ pages
    ∧ length pages = 1.
Proof.
  intros files.
  destruct (@build_site_page_failure (strict_site files) Demo.fresh
              [<["body" := ""]> (list_to_map [("slug", "c"); ("date", "2024-01-03")])]
              (<["body" := ""]> {[ "date" := "2024-01-02" ]}) []
              (Exc "UndefinedError" "slug is undefined")
              (strict_template "index.html") "index.html"
              (strict_template "article.html"))
    as (s' & pages & Hb & Hpages & Hact); try reflexivity.
  - repeat constructor. by eexists.
  - exists s', pages. split_and!; [exact Hb|exact Hact|].
    apply Forall2_length in Hpages. by rewrite <-Hpages.
Defined.

(** X11. What a build that ends well has done. When [build_site]
    returns, the three templates were found, the index and the archive
    rendered and every article rendered, and what the build did to the
    file system is [site_actions] and nothing else, in this order: the
    old output directory removed if there was one, the directory made,
    the static files copied if there are any, the index, the directory of
    the pages, the pages in the order of the articles, the archive, the
    sitemap and [robots.txt]. So a build in which a template is missing
    or does not render does not end well. *)
Theorem build_site_completes `{Site} (s s' : build) :
  build_site s = (Ok (), s') →
  let articles := sort_reverse date_key (loaded_articles article_files) in
  ∃ index_tmpl index_html article_tmpl archive_tmpl archive_html pages,
    get_template globals "index.html" = inr index_tmpl
    ∧ index_tmpl [("articles", Dicts (take 30 articles));
                  ("categories",
                   Groups (group_by (λ a, default "general" (a !! "category"))
                             articles))] = inr index_html
    ∧ get_template globals "article.html" = inr article_tmpl
    ∧ Forall (λ a, ∃ html, article_tmpl [("article", Dict a)] = inr html) articles
    ∧ Forall2 (is_page article_tmpl) articles pages
    ∧ get_template globals "archive.html" = inr archive_tmpl
    ∧ archive_tmpl [("months", Groups (group_by month_key articles));
                    ("total", Int (length articles))] = inr archive_html
    ∧ actions s'
      = actions s
        ++ (if output_dir_exists then [Rmtree OUTPUT_DIR] else [])
        ++ [Mkdir OUTPUT_DIR]
        ++ (if static_dir_exists
            then [Copytree STATIC_DIR (joinpath OUTPUT_DIR "static")] else [])
        ++ [WriteText (joinpath OUTPUT_DIR "index.html") index_html;
            Mkdir (joinpath OUTPUT_DIR "article")]
        ++ pages
        ++ [WriteText (joinpath OUTPUT_DIR "archive.html") archive_html;
            WriteText (joinpath OUTPUT_DIR "sitemap.xml")
              (sitemap_xml (sitemap_entries articles));
            WriteText (joinpath OUTPUT_DIR "robots.txt") robots_txt].
Proof.
  intros Hb articles.
  destruct (build_site_trace s s' Hb)
    as (index_tmpl & index_html & article_tmpl & pages & archive_tmpl & archive_html
        & Hi & Hih & Ha & Hpages & Har & Hah & Hact).
  exists index_tmpl, index_html, article_tmpl, archive_tmpl, archive_html, pages.
  fold articles in Hpages, Hih, Hah, Hact.
  split_and!; try done.
  clear -Hpages.
  induction Hpages as [|a p l ps [html [Hr _]] _ IH]; constructor;
    [by exists html|done].
Qed.

(** A site of two stored articles, with no old output directory and no
    static files: the build ends well and writes the index, the two
    pages with the later article first, the archive, the sitemap and
    [robots.txt]. *)
Lemma build_site_completes_witness :
  let files : gmap string (exception + post) :=
    list_to_map [("a.md", Demo.stored "a" "2024-01-02");
                 ("c.md", Demo.stored "c" "2024-01-03")] in
  ∃ s' sitemap,
    @build_site (Demo.site files) Demo.fresh = (Ok (), s')
    ∧ actions s'
      = [Mkdir "/repo/_site";
         WriteText "/repo/_site/index.html" "index.html:2";
         Mkdir "/repo/_site/article";
         WriteText "/repo/_site/article/c.html" "article.html:c";
         WriteText "/repo/_site/article/a.html" "article.html:a";
         WriteText "/repo/_site/archive.html" "archive.html:";
         WriteText "/repo/_site/sitemap.xml" sitemap;
         WriteText "/repo/_site/robots.txt" robots_txt].
Proof.
  intros files.
  assert (∃ s', @build_site (Demo.site files) Demo.fresh = (Ok (), s')) as [s' Hb]
    by (eexists; vm_compute; reflexivity).
  destruct (@build_site_completes (Demo.site files) Demo.fresh s' Hb)
    as (index_tmpl & index_html & article_tmpl & archive_tmpl & archive_html & pages
        & Hi & Hih & Ha & _ & Hpages & Har & Hah & Hact).
  injection Hi as <-. injection Ha as <-. injection Har as <-.
  injection Hih as <-. injection Hah as <-.
  exists s', (sitemap_xml (sitemap_entries
                (sort_reverse date_key
                   (loaded_articles (@article_files (Demo.site files)))))).
  split; [exact Hb|]. rewrite Hact.
  apply Forall2_cons_inv_l in Hpages as (p1 & pages1 & (h1 & Hr1 & ->) & Hpages & ->).
  apply Forall2_cons_inv_l in Hpages as (p2 & pages2 & (h2 & Hr2 & ->) & Hpages & ->).
  apply Forall2_nil_inv_l in Hpages as ->.
  injection Hr1 as <-. injection Hr2 as <-.
  vm_compute. reflexivity.
Defined.

(** ** Loading the articles *)




(** ** A run of the fetcher *)






(** ** The summary of an article *)

Lemma head_app p q : p ≠ "" → Py.head (p +:+ q) = Py.head p.
Proof. by destruct p. Qed.

Lemma last_app_cons p c q : Py.last (p +:+ String c q) = Py.last (String c q).
Proof.
  induction p as [|a p IH]; [done|]. rewrite str_app_cons.
  change (Py.last (String a (p +:+ String c q)))
    with (match p +:+ String c q with "" => Some a | _ => Py.last (p +:+ String c q) end).
  rewrite IH. by destruct p.
Qed.

Lemma strip_ends p s :
  (∀ c, Py.head (Py.strip p s) = Some c → p c = false)
  ∧ (∀ c, Py.last (Py.strip p s) = Some c → p c = false).
Proof.
  unfold Py.strip. split; intros c Hc.
  - destruct (decide (Py.rstrip p (Py.lstrip p s) = "")) as [He|Hne].
    + by rewrite He in Hc.
    + rewrite rstrip_head in Hc by done. by eapply lstrip_head.
  - by eapply rstrip_last.
Qed.

Lemma truncate_description_ends `{Html} text n :
  (∀ c, Py.head (truncate_description text n) = Some c → Py.isspace c = false)
  ∧ (∀ c, Py.last (truncate_description text n) = Some c → Py.isspace c = false).
Proof.
  destruct (strip_html_facts text) as (_ & _ & Hh & Hl).
  unfold truncate_description.
  destruct (String.length (strip_html text) <=? n)%nat; [done|].
  set (t := strip_html text) in *. set (p := Py.rsplit1_head " " (Py.take n t)).
  split; intros c Hc.
  - destruct (decide (p = "")) as [He|Hne].
    { rewrite He in Hc. by injection Hc as <-. }
    rewrite head_app in Hc by done. apply Hh.
    assert (∃ r, t = p +:+ r) as [r Hr].
    { destruct (take_prefix n t) as [r1 Hr1].
      destruct (Py.contains " " (Py.take n t)) eqn:Hsp.
      - destruct (rsplit1_head_sep _ _ Hsp) as [r2 Hr2]. fold p in Hr2.
        exists (String " " r2 +:+ r1). rewrite <-str_app_assoc, <-Hr2. exact Hr1.
      - exists r1. subst p. by rewrite rsplit1_head_no_sep. }
    rewrite Hr, head_app by done. exact Hc.
  - rewrite (last_app_cons p "." "..") in Hc. by injection Hc as <-.
Qed.

Lemma summarize_some `{World} title description source s r s' :
  summarize_with_claude title description source s = (Ok (Some r), s') →
  ∃ text, r = Py.strip Py.isspace text.
Proof.
  unfold summarize_with_claude.
  destruct (negb (truthy ANTHROPIC_API_KEY) || negb HAS_ANTHROPIC); [done|].
  munfold. destruct (messages_create _ _) as [e|[|text rest]]; simpl; try done.
  intros [= <- _]. by exists text.
Qed.

(** X14. The summary of an article never starts or ends with white
    space, whether it is the text of the summarizer, which is stripped,
    or the truncated description; and it is empty only when the
    truncated description of the entry is empty, because an empty text
    from the summarizer gives way to the description. *)
Theorem summary_trimmed `{World} name category cutoff_date entry s a s' :
  fetch_entry name category cutoff_date entry s = (Ok (Some a), s') →
  (∀ c, Py.head (summary a) = Some c → Py.isspace c = false)
  ∧ (∀ c, Py.last (summary a) = Some c → Py.isspace c = false)
  ∧ (summary a = "" → entry_description entry = "")
  ∧ String.length (entry_description entry) ≤ 303.
Proof.
  intros Hfetch.
  destruct (fetch_entry_cases name category cutoff_date entry s)
    as [[Heq _]|(_ & _ & [(s1 & _ & Heq & _)|(d & s1 & sm & s2 & _ & Hsum & _ & Heq)])];
    rewrite Heq in Hfetch; try done.
  injection Hfetch as <- <-. simpl.
  assert (String.length (entry_description entry) ≤ 303) as Hlen.
  { unfold entry_description. apply (truncate_description_shape _ 300). }
  destruct sm as [r|]; simpl.
  - destruct (summarize_some _ _ _ _ _ _ Hsum) as [text ->].
    destruct (String.eqb (Py.strip Py.isspace text) "") eqn:He; simpl.
    + split_and!; [apply truncate_description_ends..|done|done].
    + apply String.eqb_neq in He.
      split_and!; [apply strip_ends..|done|done].
  - split_and!; [apply truncate_description_ends..|done|done].
Qed.

(** In the world of the test double, whose summarizer always fails, the
    summary of the entry is its stripped description. *)
Lemma summary_trimmed_witness :
  Py.isspace "T" = false
  ∧ String.length (@entry_description Demo.html Demo.entry1) ≤ 303.
Proof.
  destruct (@summary_trimmed (Demo.world (Some "key") []) "X Blog" "labs"
              Demo.cutoff Demo.entry1 (Demo.start [])
              {| title := "GPT-5 Launches"; url := "https://x.com/1";
                 source := "X Blog"; category := "labs";
                 date := "2024-01-15T10:30:00Z";
                 summary := "The new model is out.";
                 slug := "2024-01-15-gpt-5-launches-a5a1a0c4812e" |}
              (set_existing_urls (λ urls, {["https://x.com/1"]} ∪ urls)
                 {| existing_urls := ∅; ticks := 2; stdout := [];
                    stderr := ["  Claude API error: Connection error."];
                    content_dir := ∅ |}))
    as (Hhead & _ & _ & Hlen).
  - vm_compute. reflexivity.
  - split; [exact (Hhead "T"%char eq_refl)|exact Hlen].
Defined.

(** ** No tag is left *)

Lemma re_sub_tags_pair_no_gt s :
  Py.contains ">" s = false → Py.re_sub_tags_pair s = (s, None).
Proof.
  induction s as [|c s IH]; [done|]. simpl.
  intros [Hc Hs]%orb_false_iff. rewrite (IH Hs), Hc.
  destruct (c =? "<")%char; [|done]. by destruct s.
Qed.

Lemma re_sub_tags_pair_gt s :
  Py.contains ">" s = true → ∃ r, (Py.re_sub_tags_pair s).2 = Some r.
Proof.
  induction s as [|c s IH]; [done|]. simpl.
  destruct (Py.re_sub_tags_pair s) as [out after_gt] eqn:Hp.
  destruct (c =? ">")%char; simpl; [by eexists|]. exact IH.
Qed.

Lemma re_sub_tags_pair_cons c s :
  (c =? "<")%char = false →
  (Py.re_sub_tags_pair (String c s)).1 = String c (Py.re_sub_tags_pair s).1.
Proof.
  intros Hc. simpl. destruct (Py.re_sub_tags_pair s) as [out after_gt].
  by rewrite Hc.
Qed.

Lemma tag_free_cons c s :
  tag_free (String c s)
  = (negb (c =? "<")%char
     || match s with
        | "" => true
        | String d _ => (d =? ">")%char || negb (Py.contains ">" s)
        end) && tag_free s.
Proof. reflexivity. Qed.

Lemma re_sub_tags_pair_free s :
  tag_free (Py.re_sub_tags_pair s).1 = true
  ∧ ∀ r, (Py.re_sub_tags_pair s).2 = Some r → tag_free r = true.
Proof.
  induction s as [|c s [IH1 IH2]]; [done|].
  destruct s as [|d s'] eqn:Hs.
  { simpl. split.
    - assert (tag_free (String c "") = true) as Hc
        by (rewrite tag_free_cons; simpl; by rewrite orb_true_r).
      by destruct (c =? "<")%char.
    - intros r. by destruct (c =? ">")%char; intros [= <-]. }
  rewrite <-Hs in *.
  assert ((Py.re_sub_tags_pair (String c s)).2
          = if (c =? ">")%char then Some (Py.re_sub_tags_pair s).1
            else (Py.re_sub_tags_pair s).2) as Hsnd.
  { simpl. by destruct (Py.re_sub_tags_pair s). }
  split.
  2:{ intros r. rewrite Hsnd. destruct (c =? ">")%char; [by intros [= <-]|apply IH2]. }
  destruct (c =? "<")%char eqn:Hc.
  2:{ rewrite re_sub_tags_pair_cons by done. rewrite tag_free_cons, Hc. simpl.
      exact IH1. }
  assert ((Py.re_sub_tags_pair (String c s)).1
          = match (Py.re_sub_tags_pair s).2 with
            | Some r => if (d =? ">")%char then String c (Py.re_sub_tags_pair s).1 else r
            | None => String c (Py.re_sub_tags_pair s).1
            end) as ->.
  { rewrite Hs. simpl. destruct (Py.re_sub_tags_pair s') as [out after_gt].
    rewrite Hc. by destruct (d =? "<")%char, (d =? ">")%char, after_gt. }
  destruct (Py.re_sub_tags_pair s).2 as [r|] eqn:Hafter.
  - destruct (d =? ">")%char eqn:Hd; [|by apply IH2].
    rewrite tag_free_cons, IH1, andb_true_r.
    rewrite Hs, re_sub_tags_pair_cons.
    + by rewrite Hd, orb_true_r.
    + apply Ascii.eqb_eq in Hd as ->. done.
  - rewrite tag_free_cons, IH1, andb_true_r.
    destruct (Py.contains ">" s) eqn:Hgt.
    { destruct (re_sub_tags_pair_gt s Hgt) as [r Hr]. congruence. }
    rewrite (re_sub_tags_pair_no_gt s Hgt). simpl. rewrite Hs in *.
    by rewrite Hgt, !orb_true_r.
Qed.

Lemma tag_free_fixed s : tag_free s = true → Py.re_sub_tags s = s.
Proof.
  unfold Py.re_sub_tags. induction s as [|c s IH]; [done|].
  rewrite tag_free_cons. intros [Hh Hs]%andb_true_iff. specialize (IH Hs).
  simpl. destruct (Py.re_sub_tags_pair s) as [out after_gt] eqn:Hp. simpl in *.
  subst out. destruct (c =? "<")%char; [|done].
  destruct s as [|d s']; [done|]. simpl in Hh.
  destruct after_gt as [r|]; [|done].
  destruct (d =? ">")%char eqn:Hd; [done|]. simpl in Hh.
  apply negb_true_iff in Hh.
  pose proof (re_sub_tags_pair_no_gt (String d s')) as Hno.
  cbn [Py.contains] in Hno. rewrite Hd, Hh in Hno. specialize (Hno eq_refl).
  congruence.
Qed.

Lemma tag_free_prefix p q : tag_free (p +:+ q) = true → tag_free p = true.
Proof.
  induction p as [|c p IH]; [done|]. rewrite str_app_cons, !tag_free_cons.
  intros [Hh Ht]%andb_true_iff. rewrite (IH Ht), andb_true_r.
  destruct (c =? "<")%char; [|done]. simpl in *.
  destruct p as [|d p']; [done|]. rewrite str_app_cons in Hh.
  destruct (d =? ">")%char eqn:Hd; [done|]. simpl in *.
  rewrite Hd in *. simpl in *. apply negb_true_iff in Hh. apply negb_true_iff.
  clear -Hh. induction p' as [|a p' IH]; [done|].
  rewrite str_app_cons in Hh. simpl in *.
  apply orb_false_iff in Hh as [-> Hh]. by apply IH.
Qed.

Lemma tag_free_suffix p q : tag_free (p +:+ q) = true → tag_free q = true.
Proof.
  induction p as [|c p IH]; [done|]. rewrite str_app_cons, tag_free_cons.
  intros [_ Ht]%andb_true_iff. by apply IH.
Qed.

Lemma contains_re_sub_runs cls r b c s :
  (r =? c)%char = false → Py.contains c s = false →
  Py.contains c (Py.re_sub_runs_from cls r b s) = false.
Proof.
  intros Hr. revert b. induction s as [|a s IH]; intros b; [done|]. simpl.
  intros [Ha Hs]%orb_false_iff.
  destruct (cls a); [destruct b|]; simpl; rewrite ?Hr, ?Ha, ?IH; done.
Qed.

Lemma tag_free_re_sub_runs cls r b s :
  cls "<"%char = false → cls ">"%char = false →
  (r =? "<")%char = false → (r =? ">")%char = false →
  tag_free s = true → tag_free (Py.re_sub_runs_from cls r b s) = true.
Proof.
  intros Hlt Hgt Hr1 Hr2. revert b. induction s as [|c s IH]; intros b; [done|].
  rewrite tag_free_cons. intros [Hh Hs]%andb_true_iff.
  cbn [Py.re_sub_runs_from]. destruct (cls c) eqn:Hc.
  - destruct b; [by apply IH|]. rewrite tag_free_cons, Hr1. simpl. by apply IH.
  - rewrite tag_free_cons, (IH false Hs), andb_true_r.
    destruct (c =? "<")%char; [|done]. simpl in *.
    destruct s as [|d s']; [done|].
    destruct (d =? ">")%char eqn:Hd.
    + apply Ascii.eqb_eq in Hd as ->. cbn [Py.re_sub_runs_from]. by rewrite Hgt.
    + simpl in Hh. apply negb_true_iff in Hh.
      change (Py.contains ">" (String d s') = false) in Hh.
      pose proof (contains_re_sub_runs cls r false ">" (String d s') Hr2 Hh) as Hno.
      destruct (Py.re_sub_runs_from cls r false (String d s')) as [|x out]; [done|].
      by rewrite Hno, orb_true_r.
Qed.

(** X15. After [strip_html] has removed the tags no tag is left: the
    pattern matches nowhere in the result, so that removing the tags
    again changes nothing. For a text with no ampersand, which the entity
    decoder returns as it is, the text that [strip_html] returns holds no
    tag either. *)
Theorem no_tag_left `{Html} (text : string) :
  tag_free (Py.re_sub_tags text) = true
  ∧ Py.re_sub_tags (Py.re_sub_tags text) = Py.re_sub_tags text
  ∧ (Py.contains "&" text = false →
     tag_free (strip_html text) = true
     ∧ Py.re_sub_tags (strip_html text) = strip_html text).
Proof.
  assert (tag_free (Py.re_sub_tags text) = true) as Hfree
    by apply re_sub_tags_pair_free.
  split_and!; [done|by apply tag_free_fixed|].
  intros Hamp.
  assert (tag_free (strip_html text) = true) as Hs; [|by split; [|apply tag_free_fixed]].
  unfold strip_html. destruct (String.eqb text ""); [done|].
  assert (unescape (Py.re_sub_tags text) = Py.re_sub_tags text) as ->.
  { unfold unescape.
    assert (Py.contains "&" (Py.re_sub_tags text) = false) as ->; [|done].
    clear -Hamp. unfold Py.re_sub_tags.
    assert (Py.contains "&" (Py.re_sub_tags_pair text).1 = false
            ∧ ∀ r, (Py.re_sub_tags_pair text).2 = Some r → Py.contains "&" r = false)
      as [? _]; [|done].
    induction text as [|c text IH]; [done|]. simpl in Hamp.
    apply orb_false_iff in Hamp as [Hc Ht]. destruct (IH Ht) as [IH1 IH2].
    simpl. destruct (Py.re_sub_tags_pair text) as [out after_gt]. simpl in *.
    split.
    - destruct (c =? "<")%char; [|by simpl; rewrite Hc].
      destruct text as [|d text'], after_gt as [r|]; simpl; rewrite ?Hc; try done.
      destruct (d =? ">")%char; [by simpl; rewrite Hc|by apply IH2].
    - intros r. destruct (c =? ">")%char; [by intros [= <-]|apply IH2]. }
  unfold Py.strip, Py.re_sub_runs.
  set (t := Py.re_sub_runs_from Py.isspace " " false (Py.re_sub_tags text)).
  assert (tag_free t = true) as Ht by (by apply tag_free_re_sub_runs).
  destruct (rstrip_prefix Py.isspace (Py.lstrip Py.isspace t)) as [r2 H2].
  destruct (lstrip_suffix Py.isspace t) as [r3 H3].
  rewrite H3 in Ht. apply tag_free_suffix in Ht.
  rewrite H2 in Ht. by apply tag_free_prefix in Ht.
Qed.

Lemma no_tag_left_witness :
  Py.contains "&" "<p>if a<b then <b>stop</b></p> <" = false
  ∧ @strip_html Demo.html "<p>if a<b then <b>stop</b></p> <" = "if astop <"
  ∧ tag_free "if astop <" = true.
Proof.
  assert (@strip_html Demo.html "<p>if a<b then <b>stop</b></p> <" = "if astop <")
    as Hs by reflexivity.
  split; [reflexivity|]. split; [exact Hs|]. rewrite <-Hs.
  apply (@no_tag_left Demo.html "<p>if a<b then <b>stop</b></p> <"). reflexivity.
Defined.

(** ** The cutoff of a run *)

Section cutoff.
Import Datetime.
Local Open Scope Z_scope.

Lemma days_before_month_step m b :
  2 ≤ m ≤ 12 →
  nth (Z.to_nat m) DAYS_BEFORE_MONTH 0 + (if (2 <? m) && b then 1 else 0)
  = nth (Z.to_nat (m - 1)) DAYS_BEFORE_MONTH 0
    + (if (2 <? m - 1) && b then 1 else 0)
    + (nth (Z.to_nat (m - 1)) DAYS_IN_MONTH 0
       + (if (m - 1 =? 2) && b then 1 else 0)).
Proof.
  intros Hm.
  assert (m = 2 ∨ m = 3 ∨ m = 4 ∨ m = 5 ∨ m = 6 ∨ m = 7 ∨ m = 8 ∨ m = 9
          ∨ m = 10 ∨ m = 11 ∨ m = 12) as Hcases by lia.
  destruct b; destruct_or!; subst m; reflexivity.
Qed.

Lemma days_before_year_split q a b c :
  0 ≤ a ≤ 3 → 0 ≤ b ≤ 24 → 0 ≤ c ≤ 3 →
  days_before_year (400 * q + 100 * a + 4 * b + c + 1)
  = 146097 * q + 36524 * a + 1461 * b + 365 * c.
Proof.
  intros Ha Hb Hc. unfold days_before_year. cbv zeta.
  replace (400 * q + 100 * a + 4 * b + c + 1 - 1)
    with (400 * q + 100 * a + 4 * b + c) by lia.
  Z.div_mod_to_equations. lia.
Qed.

Lemma is_leap_split q a b c :
  0 ≤ a ≤ 3 → 0 ≤ b ≤ 24 → 0 ≤ c ≤ 3 →
  is_leap (400 * q + 100 * a + 4 * b + c + 1)
  = (c =? 3) && (negb (b =? 24) || (a =? 3)).
Proof.
  intros Ha Hb Hc. unfold is_leap.
  set (y := 400 * q + 100 * a + 4 * b + c + 1).
  destruct (Z.eqb_spec (y mod 4) 0), (Z.eqb_spec (y mod 100) 0),
    (Z.eqb_spec (y mod 400) 0), (Z.eqb_spec c 3), (Z.eqb_spec b 24),
    (Z.eqb_spec a 3); simpl; try reflexivity; exfalso; subst y;
    Z.div_mod_to_equations; lia.
Qed.

Lemma ord2ymd_inverse n :
  let '(y, m, d) := ord2ymd n in ymd2ord y m d = n.
Proof.
  unfold ord2ymd. cbv zeta.
  pose proof (Z.div_mod (n - 1) 146097 ltac:(lia)) as E0.
  pose proof (Z.mod_pos_bound (n - 1) 146097 ltac:(lia)) as B0.
  set (q := (n - 1) / 146097) in *. set (r0 := (n - 1) mod 146097) in *.
  pose proof (Z.div_mod r0 36524 ltac:(lia)) as E1.
  pose proof (Z.mod_pos_bound r0 36524 ltac:(lia)) as B1.
  set (n100 := r0 / 36524) in *. set (r1 := r0 mod 36524) in *.
  pose proof (Z.div_mod r1 1461 ltac:(lia)) as E2.
  pose proof (Z.mod_pos_bound r1 1461 ltac:(lia)) as B2.
  set (n4 := r1 / 1461) in *. set (r2 := r1 mod 1461) in *.
  pose proof (Z.div_mod r2 365 ltac:(lia)) as E3.
  pose proof (Z.mod_pos_bound r2 365 ltac:(lia)) as B3.
  set (n1 := r2 / 365) in *. set (r3 := r2 mod 365) in *.
  clearbody q r0 n100 r1 n4 r2 n1 r3.
  assert (0 ≤ n100 ≤ 4) by lia. assert (0 ≤ n4 ≤ 24) by lia.
  assert (0 ≤ n1 ≤ 4) by lia.
  destruct ((n1 =? 4) || (n100 =? 4)) eqn:Hlast.
  - assert (∃ a b, 0 ≤ a ≤ 3 ∧ 0 ≤ b ≤ 24
                   ∧ (negb (b =? 24) || (a =? 3)) = true
                   ∧ q * 400 + 1 + n100 * 100 + n4 * 4 + n1 - 1
                     = 400 * q + 100 * a + 4 * b + 3 + 1
                   ∧ n = 146097 * q + 36524 * a + 1461 * b + 1461)
      as (a & b & Ha & Hb & Hleap & -> & ->).
    { destruct (Z.eqb_spec n100 4) as [->|].
      - exists 3, 24. split_and!; try done; lia.
      - exists n100, n4. assert (n1 = 4) as -> by lia.
        assert (n4 ≠ 24) as ?%Z.eqb_neq by lia.
        split_and!; first [lia | by apply orb_true_iff; left; apply negb_true_iff]. }
    unfold ymd2ord, days_before_month.
    rewrite days_before_year_split, is_leap_split by lia.
    rewrite Hleap. simpl. lia.
  - apply orb_false_iff in Hlast as [?%Z.eqb_neq ?%Z.eqb_neq].
    replace (q * 400 + 1 + n100 * 100 + n4 * 4 + n1)
      with (400 * q + 100 * n100 + 4 * n4 + n1 + 1) by lia.
    rewrite <-(is_leap_split q n100 n4 n1) by lia.
    set (y := 400 * q + 100 * n100 + 4 * n4 + n1 + 1).
    assert (days_before_year y = n - 1 - r3) as Hy
      by (unfold y; rewrite days_before_year_split; lia).
    rewrite Z.shiftr_div_pow2 by lia. change (2 ^ 5) with 32.
    pose proof (Z.div_mod (r3 + 50) 32 ltac:(lia)) as E4.
    pose proof (Z.mod_pos_bound (r3 + 50) 32 ltac:(lia)) as B4.
    set (m := (r3 + 50) / 32) in *. clearbody m.
    assert (1 ≤ m ≤ 12) by lia.
    destruct (Z.ltb_spec r3
      (nth (Z.to_nat m) DAYS_BEFORE_MONTH 0
       + (if (2 <? m) && is_leap y then 1 else 0))) as [Hlt|Hge].
    + assert (2 ≤ m ≤ 12) as Hm.
      { destruct (Z.eq_dec m 1) as [->|]; [|lia]. simpl in Hlt. lia. }
      unfold ymd2ord, days_before_month.
      rewrite (days_before_month_step m (is_leap y) Hm). lia.
    + unfold ymd2ord, days_before_month. lia.
Qed.

Lemma sub_days_spec d n :
  (0 < toordinal d - n ≤ 3652059 →
   ∃ c, sub_days d n = inr c
        ∧ toordinal c = toordinal d - n
        ∧ hour c = hour d ∧ minute c = minute d ∧ second c = second d
        ∧ microsecond c = microsecond d ∧ tzinfo c = tzinfo d)
  ∧ (¬ 0 < toordinal d - n ≤ 3652059 →
     sub_days d n = inl (Exc "OverflowError" "date value out of range")).
Proof.
  unfold sub_days. cbv zeta. split; intros Ho.
  - assert ((0 <? toordinal d - n) && (toordinal d - n <=? 3652059) = true) as ->
      by (apply andb_true_iff; split; [apply Z.ltb_lt|apply Z.leb_le]; lia).
    pose proof (ord2ymd_inverse (toordinal d - n)) as Hinv.
    destruct (ord2ymd (toordinal d - n)) as [[y m] dd].
    eexists. split; [reflexivity|]. by split_and!.
  - assert ((0 <? toordinal d - n) && (toordinal d - n <=? 3652059) = false) as ->;
      [|done].
    apply andb_false_iff.
    destruct (Z.ltb_spec 0 (toordinal d - n)); [right; apply Z.leb_gt; lia|by left].
Qed.

(** X16. When the feed list loads, [main] fetches with a cutoff that is
    the clock of the run moved back by exactly seven days: the cutoff is
    in UTC and names the instant 7 * 24 * 60 * 60 seconds before the one
    the clock names, whatever month or year boundary lies between the
    two; a date with a time zone is then before the cutoff exactly when
    its instant is more than seven days before the clock. The directory
    is as it was when the feeds are fetched. Only a clock within the
    first week of year 1 (or beyond the last day [datetime] can name)
    makes the subtraction fail, and then the run raises [OverflowError]
    and the directory is as it was. *)
Theorem main_cutoff `{World} (s : run) (feeds : list (gmap string string)) :
  yaml_feeds = inr feeds →
  let now := clock (ticks s) in
  (7 < toordinal now ≤ 3652066 →
   ∃ c s1,
     main s
     = (total_new ← fetch_feeds feeds c 0;
        print (nl +:+ "Done. " +:+ pretty total_new +:+ " new articles fetched.");;
        mret total_new) s1
     ∧ content_dir s1 = content_dir s
     ∧ tzinfo c = Some 0
     ∧ instant c 0 = instant now 0 - 7 * 24 * 60 * 60 * 1000000
     ∧ ∀ e off, tzinfo e = Some off →
                lt e c = inr (instant e off
                              <? instant now 0 - 7 * 24 * 60 * 60 * 1000000))
  ∧ (¬ 7 < toordinal now ≤ 3652066 →
     ∃ s1, main s = (Raise (Exc "OverflowError" "date value out of range"), s1)
           ∧ content_dir s1 = content_dir s).
Proof.
  intros Hfeeds now.
  destruct (sub_days_spec (replace_tzinfo_utc now) 7) as [Hin Hout].
  change (toordinal (replace_tzinfo_utc now)) with (toordinal now) in *.
  assert (∃ s1,
            content_dir s1 = content_dir s
            ∧ main s
              = (cutoff_date ← lift (sub_days (replace_tzinfo_utc now) 7);
                 total_new ← fetch_feeds feeds cutoff_date 0;
                 print (nl +:+ "Done. " +:+ pretty total_new
                        +:+ " new articles fetched.");;
                 mret total_new) s1) as (s1 & Hdir & ->).
  { destruct (get_existing_urls_returns s) as (urls & Hurls & _).
    eexists. split; cycle 1.
    - unfold main, load_feeds. rewrite bind_unfold, Hfeeds, lift_inr, bind_unfold.
      rewrite Hurls, bind_unfold. unfold modify at 1. rewrite bind_unfold.
      unfold datetime_now, call at 1. cbn [set_existing_urls ticks]. reflexivity.
    - reflexivity. }
  split; intros Ho.
  - destruct Hin as (c & Hc & Hord & Hh & Hm & Hs & Hus & Htz); [lia|].
    exists c, s1. rewrite bind_unfold, Hc, lift_inr.
    assert (∀ off, instant c off = instant now off - 7 * 24 * 60 * 60 * 1000000)
      as Hinst.
    { intros off. unfold instant. rewrite Hord, Hh, Hm, Hs, Hus.
      cbn [replace_tzinfo_utc hour minute second microsecond]. lia. }
    split_and!; [done|done|by rewrite Htz|by apply Hinst|].
    intros e off He. unfold lt. rewrite He, Htz. cbn [replace_tzinfo_utc tzinfo].
    by rewrite Hinst.
  - exists s1. rewrite bind_unfold, Hout, lift_inl by lia. done.
Qed.

Lemma main_cutoff_witness :
  @yaml_feeds (Demo.world None []) = inr [Demo.broken_feed; Demo.feed]
  ∧ 7 < toordinal Demo.now ≤ 3652066
  ∧ ∃ c s1,
      @main (Demo.world None []) (Demo.start [])
      = (total_new ← @fetch_feeds (Demo.world None [])
                       [Demo.broken_feed; Demo.feed] c 0;
         print (nl +:+ "Done. " +:+ pretty total_new +:+ " new articles fetched.");;
         mret total_new) s1
      ∧ instant c 0 = instant Demo.now 0 - 7 * 24 * 60 * 60 * 1000000.
Proof.
  assert (7 < toordinal Demo.now ≤ 3652066) as Ho by (split; [reflexivity|discriminate]).
  split; [reflexivity|]. split; [exact Ho|].
  destruct (@main_cutoff (Demo.world None []) (Demo.start []) _ eq_refl) as [Hin _].
  destruct (Hin Ho) as (c & s1 & Hmain & _ & _ & Hinst & _).
  exists c, s1. split; [exact Hmain|exact Hinst].
Defined.

End cutoff.
